(** * Transfer learning notebook: feature cache, splitting and batching

    A shallow embedding of the orchestration code of
    [transfer-learning/Transfer_Learning_Solution.ipynb] (and of the exercise
    notebook that shares its cells): the batching loop that feeds images to
    the pretrained network, the two flat cache files, the label encoding,
    the holdout split, [get_batches] and the training loop.

    Python integers are [Z]; sequences (lists, first axes of arrays) are
    [list]; a raised exception is the [Raise] case of [result]. *)

From Stdlib Require Import ZArith Lia String Ascii OrdersEx Sorted.
From stdpp Require Import base list gmap strings.

Local Open Scope Z_scope.

(** ** Exceptions and results *)

Inductive exn : Type :=
| TypeError
| ValueError
| ZeroDivisionError
| CsvError.

Inductive result (A : Type) : Type :=
| Ok (a : A)
| Raise (e : exn).
Arguments Ok {A} a.
Arguments Raise {A} e.

#[global] Instance result_ret : MRet result := fun A a => Ok a.

#[global] Instance result_bind : MBind result := fun A B k m =>
  match m with
  | Ok a => k a
  | Raise e => Raise e
  end.

Definition is_ok {A} (m : result A) : bool :=
  match m with Ok _ => true | Raise _ => false end.

(** A [for] loop whose body may raise. *)
Fixpoint for_each {S A} (xs : list A) (body : S -> A -> result S) (st : S)
  : result S :=
  match xs with
  | [] => Ok st
  | a :: rest => st' ← body st a; for_each rest body st'
  end.

(** ** Python built-ins used by the notebook *)

Module Py.

(** [a // b] and [a % b] on integers: floor division, as [Z.div], raising
    on a zero divisor. *)
Definition floordiv (a b : Z) : result Z :=
  if b =? 0 then Raise ZeroDivisionError else Ok (a / b).

Definition mod_ (a b : Z) : result Z :=
  if b =? 0 then Raise ZeroDivisionError else Ok (a mod b).

Definition len {A} (x : list A) : Z := Z.of_nat (length x).

(** Number of elements of [range(start, stop, step)] for a non-zero step. *)
Definition range_len (start stop step : Z) : nat :=
  if 0 <? step then Z.to_nat ((stop - start + step - 1) / step)
  else Z.to_nat ((start - stop - step - 1) / (- step)).

(** [range(start, stop, step)]; a zero step is a [ValueError]. *)
Definition range (start stop step : Z) : result (list Z) :=
  if step =? 0 then Raise ValueError
  else Ok (map (fun k : nat => start + Z.of_nat k * step)
             (seq 0 (range_len start stop step))).

(** Normalisation of a slice bound against a length: negative bounds count
    from the end, and every bound is clipped to [0, len]. *)
Definition clip (n i : Z) : Z :=
  if i <? 0 then Z.max 0 (i + n) else Z.min i n.

(** [x[lo:hi]] *)
Definition slice {A} (x : list A) (lo hi : Z) : list A :=
  let a := clip (len x) lo in
  let b := clip (len x) hi in
  take (Z.to_nat (b - a)) (drop (Z.to_nat a) x).

(** [x[lo:]] *)
Definition slice_from {A} (x : list A) (lo : Z) : list A :=
  drop (Z.to_nat (clip (len x) lo)) x.

(** [enumerate(xs, start)] *)
Fixpoint enumerate {A} (xs : list A) (start : Z) : list (Z * A) :=
  match xs with
  | [] => []
  | a :: r => (start, a) :: enumerate r (start + 1)
  end.

End Py.

(** ** Generators

    The complete run of a finite generator: the values it yields, in order,
    ending either in [StopIteration] or in a raised exception. *)

Inductive gen (A : Type) : Type :=
| Stop
| Yield (a : A) (rest : gen A)
| Throw (e : exn).
Arguments Stop {A}.
Arguments Yield {A} a rest.
Arguments Throw {A} e.

Fixpoint yielded {A} (g : gen A) : list A :=
  match g with
  | Yield a rest => a :: yielded rest
  | _ => []
  end.

Fixpoint raised {A} (g : gen A) : option exn :=
  match g with
  | Stop => None
  | Yield _ rest => raised rest
  | Throw e => Some e
  end.

(** ** get_batches *)

Module Batches.

Section GetBatches.
Context {X Y : Type}.

(** The body of the [for ii in range(...)] loop: one yielded pair. *)
Definition batch_at (x : list X) (y : list Y) (n_batches batch_size ii : Z)
  : list X * list Y :=
  if negb (ii =? (n_batches - 1) * batch_size)
  then (Py.slice x ii (ii + batch_size), Py.slice y ii (ii + batch_size))
  else (Py.slice_from x ii, Py.slice_from y ii).

Definition get_batches (x : list X) (y : list Y) (n_batches : Z)
  : gen (list X * list Y) :=
  match Py.floordiv (Py.len x) n_batches with
  | Raise e => Throw e
  | Ok batch_size =>
      match Py.range 0 (n_batches * batch_size) batch_size with
      | Raise e => Throw e
      | Ok iis =>
          foldr (fun ii rest => Yield (batch_at x y n_batches batch_size ii) rest)
                Stop iis
      end
  end.

End GetBatches.

(** The default [n_batches=10] of the signature. *)
Definition default_n_batches : Z := 10.

End Batches.

(** ** The holdout split

    [StratifiedShuffleSplit(n_splits=1, test_size=0.2)] belongs to
    scikit-learn; the notebook's own code starts from the pair
    [(train_idx, val_idx)] that [next(ss.split(codes, labels_vecs))] returns
    and cuts the second component in two. *)

Module Split.

(** What scikit-learn promises about one shuffle split of [n] samples: the
    two index arrays together hold every index below [n] exactly once. *)
Definition shuffle_split (n : nat) (first : list nat * list nat) : Prop :=
  first.1 ++ first.2 ≡ₚ seq 0 n.

(** [int(len(val_idx)/2)]: true division, then truncation (exact for every
    length a 64-bit float holds exactly). *)
Definition half_val_len (val_idx : list nat) : Z := Py.len val_idx / 2.

Record partition : Type := Partition {
  train_idx : list nat;
  val_idx : list nat;
  test_idx : list nat
}.

Definition holdout_split (first : list nat * list nat) : partition :=
  let '(train_idx, val_idx) := first in
  let half_val_len := half_val_len val_idx in
  {| train_idx := train_idx;
     val_idx := Py.slice val_idx 0 half_val_len;
     test_idx := Py.slice_from val_idx half_val_len |}.

End Split.

(** ** NumPy: the operations the notebook calls *)

Module Np.

(** [np.concatenate(arrays)] along the first axis; an empty sequence of
    arrays is a [ValueError]. *)
Definition concatenate {A} (arrays : list (list A)) : result (list A) :=
  match arrays with
  | [] => Raise ValueError
  | _ => Ok (concat arrays)
  end.

(** *** float32 arrays and their raw dump

    A 32-bit float is its bit pattern, a file a sequence of bytes. *)

Definition is_float32 (w : Z) : Prop := 0 <= w < 2 ^ 32.

(** A two-dimensional float32 array: its shape and its items in row-major
    order. *)
Record ndarray : Type := Ndarray {
  shape : Z * Z;
  data : list Z
}.

Definition well_formed (a : ndarray) : Prop :=
  0 <= (shape a).1 /\ 0 <= (shape a).2 /\
  Py.len (data a) = (shape a).1 * (shape a).2 /\
  Forall is_float32 (data a).

Definition byte_of (w k : Z) : Z := Z.land (Z.shiftr w (8 * k)) 255.

(** The four bytes of an item, least significant first. *)
Definition item_bytes (w : Z) : list Z :=
  [byte_of w 0; byte_of w 1; byte_of w 2; byte_of w 3].

Definition item_of_bytes (b0 b1 b2 b3 : Z) : Z :=
  Z.lor b0 (Z.lor (Z.shiftl b1 8) (Z.lor (Z.shiftl b2 16) (Z.shiftl b3 24))).

(** [a.tofile(f)]: the items in row-major order, nothing else. *)
Definition tofile (a : ndarray) : list Z := flat_map item_bytes (data a).

(** [np.fromfile(f, dtype=np.float32)]: the complete items of the file. *)
Fixpoint fromfile (bytes : list Z) : list Z :=
  match bytes with
  | b0 :: b1 :: b2 :: b3 :: rest => item_of_bytes b0 b1 b2 b3 :: fromfile rest
  | _ => []
  end.

(** [flat.reshape((n, -1))]: the unknown dimension is the size divided by
    [n], and a zero [n] or a size [n] does not divide is a [ValueError]. *)
Definition reshape (flat : list Z) (n : Z) : result ndarray :=
  if (n <=? 0) || negb (Py.len flat mod n =? 0) then Raise ValueError
  else Ok {| shape := (n, Py.len flat / n); data := flat |}.

(** *** Arrays of strings *)

Inductive str_array : Type :=
| Scalar (s : string)                   (* shape () *)
| Vector (items : list string)          (* shape (n,) *)
| Matrix (rows : list (list string))    (* shape (n, k), rows of one length *)
| Objects (rows : list (list string)).  (* shape (n,), of list objects *)

(** [np.array(rows)] for a list of lists of strings. Rows of unequal length
    give a one-dimensional array of list objects (NumPy before 1.24; later
    releases raise instead). *)
Definition array (rows : list (list string)) : str_array :=
  match rows with
  | [] => Vector []
  | r :: rest =>
      if forallb (fun r' : list string => bool_decide (length r' = length r)) rest
      then Matrix rows
      else Objects rows
  end.

(** [a.squeeze()]: the axes of length one are removed. An array of list
    objects built by [array] has at least two rows and stays as it is. *)
Definition squeeze (a : str_array) : str_array :=
  match a with
  | Scalar s => Scalar s
  | Vector [s] => Scalar s
  | Vector items => Vector items
  | Matrix [[s]] => Scalar s
  | Matrix [r] => Vector r
  | Matrix rows =>
      if forallb (fun r : list string => bool_decide (length r = 1%nat)) rows
      then Vector (concat rows)
      else Matrix rows
  | Objects rows => Objects rows
  end.

(** [len(a)]: the length of the first axis; an array without axes has
    none. *)
Definition len (a : str_array) : result Z :=
  match a with
  | Scalar _ => Raise TypeError
  | Vector items => Ok (Py.len items)
  | Matrix rows | Objects rows => Ok (Py.len rows)
  end.

End Np.

(** ** The feature-cache pipeline: the batching loop *)

Module Pipeline.

(** [os.path.join(a, b)] on POSIX paths. *)
Definition path_join (a b : string) : string :=
  match b with
  | String "/" _ => b
  | _ =>
      match a with
      | EmptyString => b
      | _ => if String.prefix "/" (String.rev a) then a +:+ b else a +:+ "/" +:+ b
      end
  end.

Definition data_dir : string := "flower_photos/".

(** The dataset root as [os.listdir] and [os.path.isdir] show it: the
    entries in listing order, each with its own listing when it is a
    directory. *)
Definition dataset : Type := list (string * option (list string)).

(** [classes = [each for each in contents if os.path.isdir(data_dir + each)]],
    paired with what [os.listdir(class_path)] returns for each. *)
Definition classes (root : dataset) : list (string * list string) :=
  omap (fun e : string * option (list string) =>
          match e.2 with Some files => Some (e.1, files) | None => None end) root.

Section Loop.
Context {Image Code : Type}.

(** [utils.load_image(path)] followed by [reshape((1, 224, 224, 3))]: either
    may raise. *)
Variable load_image : string -> result Image.

(** The row [vgg.relu6] computes for one image; [sess.run(vgg.relu6, ...)]
    on a batch returns one such row per image of the batch, in order. *)
Variable relu6 : Image -> Code.

Variable batch_size : Z.

Definition sess_run (images : list Image) : list Code := map relu6 images.

(** The variables the cell mutates, and [runs]: the image batches handed to
    [sess.run] so far, in call order. *)
Record state : Type := State {
  codes : option (list Code);
  labels : list string;
  batch : list (list Image);
  runs : list (list Image)
}.

Definition init : state :=
  {| codes := None; labels := []; batch := []; runs := [] |}.

(** One iteration of [for ii, file in enumerate(files, 1)]. *)
Definition file_step (each class_path : string) (n_files : Z)
    (st : state) (ii_file : Z * string) : result state :=
  let '(ii, file) := ii_file in
  img ← load_image (path_join class_path file);
  let batch := batch st ++ [[img]] in
  let labels := labels st ++ [each] in
  r ← Py.mod_ ii batch_size;
  if (r =? 0) || (ii =? n_files) then
    images ← Np.concatenate batch;
    let codes_batch := sess_run images in
    let codes :=
      match codes st with
      | None => codes_batch
      | Some codes => codes ++ codes_batch
      end in
    Ok {| codes := Some codes; labels := labels; batch := [];
          runs := runs st ++ [images] |}
  else
    Ok {| codes := codes st; labels := labels; batch := batch;
          runs := runs st |}.

(** One iteration of [for each in classes]. *)
Definition class_step (st : state) (class : string * list string)
  : result state :=
  let '(each, files) := class in
  let class_path := data_dir +:+ each in
  for_each (Py.enumerate files 1) (file_step each class_path (Py.len files)) st.

Definition run (root : dataset) : result state :=
  for_each (classes root) class_step init.

End Loop.

(** The rows accumulated so far; [codes] is [None] until the first batch
    has run. *)
Definition rows {Code} (codes : option (list Code)) : list Code :=
  default [] codes.

(** The files of a class directory and the images they load to. *)
Definition loaded {Image} (load_image : string -> result Image)
    (class_path : string) (files : list string) (imgs : list Image) : Prop :=
  Forall2 (fun file img => load_image (path_join class_path file) = Ok img)
          files imgs.

(** The samples of one class in listing order: label and image path. *)
Definition class_samples (class : string * list string) : list (string * string) :=
  map (fun file => (class.1, path_join (data_dir +:+ class.1) file)) class.2.

(** The samples of a dataset in traversal order: label and image path. *)
Definition samples (root : dataset) : list (string * string) :=
  flat_map class_samples (classes root).

(** Batches as the loop cuts them: all full but possibly the last, which
    is not empty. *)
Definition batched {A} (batch_size : Z) (chunks : list (list A)) : Prop :=
  chunks = [] \/
  exists full last,
    chunks = full ++ [last] /\
    Forall (fun c : list A => Py.len c = batch_size) full /\
    0 < Py.len last <= batch_size.

End Pipeline.

(** ** The classifier graph and the training loop *)

Module Train.

(** The operations of the graph the notebook builds, by the Python names
    they are bound to. *)
Inductive op : Type :=
| inputs_ | labels_ | fc | logits | cross_entropy | cost | optimizer
| predicted | correct_pred | accuracy.

(** The operations each one is built from. *)
Definition op_inputs (o : op) : list op :=
  match o with
  | inputs_ | labels_ => []
  | fc => [inputs_]
  | logits => [fc]
  | cross_entropy => [labels_; logits]
  | cost => [cross_entropy]
  | optimizer => [cost]
  | predicted => [logits]
  | correct_pred => [predicted; labels_]
  | accuracy => [correct_pred]
  end.

(** Only [AdamOptimizer().minimize(cost)] assigns to variables. *)
Definition assigns (o : op) : bool :=
  match o with optimizer => true | _ => false end.

(** The operations a fetch makes the session execute: the fetched operation
    and, transitively, what it is built from. The graph has ten operations,
    so a chain of dependencies is at most ten long. *)
Fixpoint subgraph (depth : nat) (o : op) : list op :=
  match depth with
  | O => [o]
  | S d => o :: flat_map (subgraph d) (op_inputs o)
  end.

Definition executed (fetches : list op) : list op :=
  flat_map (subgraph 10) fetches.

Section Loop.
Context {Row Target Params Loss Acc : Type}.

(** One application of the optimizer's update on a feed. *)
Variable minimize : Params -> list Row * list Target -> Params.
Variable eval_cost : Params -> list Row * list Target -> Loss.
Variable eval_accuracy : Params -> list Row * list Target -> Acc.

(** The variables of the session after [sess.run(fetches, feed_dict=feed)]. *)
Definition sess_run (fetches : list op) (feed : list Row * list Target)
    (vars : Params) : Params :=
  if existsb assigns (executed fetches) then minimize vars feed else vars.

Inductive printed : Type :=
| TrainingLoss (epoch iteration : Z) (loss : Loss)
| ValidationAcc (epoch iteration : Z) (val_acc : Acc).

Record state : Type := State {
  vars : Params;
  iteration : Z;
  out : list printed
}.

Variables (val_x : list Row) (val_y : list Target).

(** The first half of the loop body: one gradient step on a minibatch. *)
Definition gradient_step (e : Z) (st : state)
    (xy : list Row * list Target) : state :=
  let feed := xy in
  let loss := eval_cost (vars st) feed in
  let vars' := sess_run [cost; optimizer] feed (vars st) in
  {| vars := vars';
     iteration := iteration st + 1;
     out := out st ++ [TrainingLoss (e + 1) (iteration st) loss] |}.

(** The [if iteration % 5 == 0:] block. *)
Definition validation_check (e : Z) (st : state) : state :=
  if iteration st mod 5 =? 0 then
    let feed := (val_x, val_y) in
    let val_acc := eval_accuracy (vars st) feed in
    {| vars := sess_run [accuracy] feed (vars st);
       iteration := iteration st;
       out := out st ++ [ValidationAcc e (iteration st) val_acc] |}
  else st.

Definition batch_step (e : Z) (st : state)
    (xy : list Row * list Target) : state :=
  validation_check e (gradient_step e st xy).

(** [for x, y in get_batches(train_x, train_y): ...] *)
Fixpoint for_batches (g : gen (list Row * list Target))
    (body : state -> list Row * list Target -> state) (st : state)
  : result state :=
  match g with
  | Stop => Ok st
  | Yield xy rest => for_batches rest body (body st xy)
  | Throw e => Raise e
  end.

Definition epoch (train_x : list Row) (train_y : list Target)
    (st : state) (e : Z) : result state :=
  for_batches (Batches.get_batches train_x train_y Batches.default_n_batches)
              (batch_step e) st.

(** [for e in range(epochs): ...] from freshly initialised variables. *)
Definition train (train_x : list Row) (train_y : list Target)
    (epochs : Z) (vars0 : Params) : result state :=
  es ← Py.range 0 epochs 1;
  for_each es (epoch train_x train_y)
    {| vars := vars0; iteration := 0; out := [] |}.

End Loop.

(** The iteration numbers [first + 1, ..., first + n] that are multiples of
    five. *)
Definition every_fifth (first : Z) (n : nat) : list Z :=
  filter (fun i : Z => i mod 5 = 0)
         (map (fun k : nat => first + Z.of_nat k + 1) (seq 0 n)).

(** The iterations at which a validation accuracy was printed. *)
Definition validated_at {Loss Acc} (out : list (@printed Loss Acc)) : list Z :=
  omap (fun p => match p with
                 | ValidationAcc _ i _ => Some i
                 | TrainingLoss _ _ _ => None
                 end) out.

End Train.

(** ** scikit-learn's LabelBinarizer *)

Module LabelBinarizer.

(** [np.unique]: the distinct values in increasing order, strings compared
    character by character. *)
Fixpoint insert (s : string) (sorted : list string) : list string :=
  match sorted with
  | [] => [s]
  | h :: t =>
      match String_as_OT.compare s h with
      | Lt => s :: sorted
      | Eq => sorted
      | Gt => h :: insert s t
      end
  end.

Definition unique (y : list string) : list string := foldr insert [] y.

Definition strictly_sorted (l : list string) : Prop :=
  StronglySorted String_as_OT.lt l.

(** [lb.fit(y)] stores [classes_]; an empty [y] is refused. *)
Definition fit (y : list string) : result (list string) :=
  match y with
  | [] => Raise ValueError
  | _ => Ok (unique y)
  end.

(** The indicator row of one label over the classes. *)
Definition indicator (classes : list string) (label : string) : list Z :=
  map (fun c => if String.eqb c label then 1 else 0) classes.

(** [lb.transform(y)], that is [label_binarize(y, classes=classes_)] with
    [neg_label=0], [pos_label=1]: a target of at most two distinct values is
    "binary"; a binary target over one class gives a column of zeros, over
    two classes the last indicator column alone. *)
Definition transform (classes : list string) (y : list string)
  : list (list Z) :=
  let binary := bool_decide (length (unique y) <= 2)%nat in
  let n_classes := length classes in
  if binary && bool_decide (n_classes = 1)%nat then map (fun _ => [0]) y
  else
    let Y := map (indicator classes) y in
    if binary && bool_decide (n_classes < 3)%nat
    then map (fun row => Py.slice_from row (-1)) Y
    else Y.

(** [lb.fit(labels); labels_vecs = lb.transform(labels)] *)
Definition encode (labels : list string) : result (list (list Z)) :=
  classes_ ← fit labels;
  Ok (transform classes_ labels).

Definition one_hot (row : list Z) (k : nat) : Prop :=
  forall j : nat, (j < length row)%nat ->
    row !! j = Some (if bool_decide (j = k) then 1 else 0).

End LabelBinarizer.

(** ** Text files and the csv module *)

Module Text.

Definition LF : ascii := "010"%char.
Definition CR : ascii := "013"%char.
Definition DQUOTE : ascii := "034"%char.

(** Writing through [open(name, 'w')]: a line feed becomes [os.linesep],
    which on POSIX is the line feed itself. *)
Definition write (s : string) : string := s.

(** Reading through [open(name)]: universal newlines turn CR LF and a lone
    CR into a line feed. *)
Fixpoint read (s : string) : string :=
  match s with
  | EmptyString => EmptyString
  | String c rest =>
      if Ascii.eqb c CR then
        match rest with
        | String c' rest' =>
            if Ascii.eqb c' LF then String LF (read rest')
            else String LF (read rest)
        | EmptyString => String LF EmptyString
        end
      else String c (read rest)
  end.

(** Iterating over the file: the lines, each with its line feed; [cur] is
    the line read so far. *)
Fixpoint lines_from (cur : string) (s : string) : list string :=
  match s with
  | EmptyString => match cur with EmptyString => [] | _ => [cur] end
  | String c rest =>
      if Ascii.eqb c LF then (cur +:+ String c EmptyString) :: lines_from EmptyString rest
      else lines_from (cur +:+ String c EmptyString) rest
  end.

Definition lines (s : string) : list string := lines_from EmptyString s.

End Text.

Module Csv.

Import Text.

(** The dialect of [csv.writer(f, delimiter='\n')] and
    [csv.reader(f, delimiter='\n')]: the defaults of the module (quote
    character, minimal quoting, doubled quotes, no escape character, not
    strict, CR LF after each written row) with a line feed as delimiter. *)
Definition delimiter : ascii := LF.
Definition quotechar : ascii := DQUOTE.
Definition lineterminator : string := String CR (String LF EmptyString).

Fixpoint mem (c : ascii) (s : string) : bool :=
  match s with
  | EmptyString => false
  | String c' rest => Ascii.eqb c c' || mem c rest
  end.

(** *** The writer *)

(** A character that makes the writer quote the field it occurs in. *)
Definition special (c : ascii) : bool :=
  Ascii.eqb c delimiter || Ascii.eqb c quotechar || mem c lineterminator.

Fixpoint has_special (field : string) : bool :=
  match field with
  | EmptyString => false
  | String c rest => special c || has_special rest
  end.

(** The field's characters, each quote character doubled. *)
Fixpoint doubled (field : string) : string :=
  match field with
  | EmptyString => EmptyString
  | String c rest =>
      if Ascii.eqb c quotechar then String quotechar (String c (doubled rest))
      else String c (doubled rest)
  end.

Definition join_append (field : string) (quoted : bool) : string :=
  if quoted || has_special field
  then String quotechar (doubled field +:+ String quotechar EmptyString)
  else field.

Fixpoint join (fields : list string) : string :=
  match fields with
  | [] => EmptyString
  | [f] => join_append f false
  | f :: rest => join_append f false +:+ String delimiter (join rest)
  end.

(** [writer.writerow(fields)]: the text handed to the file. A record that
    would be empty although it has a field is written as an empty quoted
    field. *)
Definition writerow (fields : list string) : string :=
  let rec := join fields in
  let rec :=
    match fields, rec with
    | _ :: _, EmptyString => join_append EmptyString true
    | _, _ => rec
    end in
  rec +:+ lineterminator.

(** A label the writer leaves as it is: not empty and free of the
    characters that call for quotes. *)
Definition plain (field : string) : Prop :=
  field <> EmptyString /\ has_special field = false.

(** *** The reader *)

Inductive parser_state : Type :=
| START_RECORD | START_FIELD | IN_FIELD | IN_QUOTED_FIELD
| QUOTE_IN_QUOTED_FIELD | EAT_CRNL.

Record reader : Type := Reader {
  state : parser_state;
  field : string;
  fields : list string
}.

Definition parse_reset : reader :=
  {| state := START_RECORD; field := EmptyString; fields := [] |}.

Definition parse_add_char (r : reader) (c : ascii) (s : parser_state) : reader :=
  {| state := s; field := field r +:+ String c EmptyString; fields := fields r |}.

Definition parse_save_field (r : reader) (s : parser_state) : reader :=
  {| state := s; field := EmptyString; fields := fields r ++ [field r] |}.

Definition set_state (r : reader) (s : parser_state) : reader :=
  {| state := s; field := field r; fields := fields r |}.

Definition is_newline (c : ascii) : bool := Ascii.eqb c LF || Ascii.eqb c CR.

(** One step of the reader's automaton; [None] is the end of a line. The
    states that only an escape character reaches are left out: the dialect
    has none. *)
Definition parse_process_char (r : reader) (c : option ascii) : result reader :=
  let start_field (r : reader) :=
    match c with
    | None => Ok (parse_save_field r START_RECORD)
    | Some ch =>
        if is_newline ch then Ok (parse_save_field r EAT_CRNL)
        else if Ascii.eqb ch quotechar then Ok (set_state r IN_QUOTED_FIELD)
        else if Ascii.eqb ch delimiter then Ok (parse_save_field r START_FIELD)
        else Ok (parse_add_char r ch IN_FIELD)
    end in
  match state r with
  | START_RECORD =>
      match c with
      | None => Ok r
      | Some ch =>
          if is_newline ch then Ok (set_state r EAT_CRNL)
          else start_field r
      end
  | START_FIELD => start_field r
  | IN_FIELD =>
      match c with
      | None => Ok (parse_save_field r START_RECORD)
      | Some ch =>
          if is_newline ch then Ok (parse_save_field r EAT_CRNL)
          else if Ascii.eqb ch delimiter then Ok (parse_save_field r START_FIELD)
          else Ok (parse_add_char r ch IN_FIELD)
      end
  | IN_QUOTED_FIELD =>
      match c with
      | None => Ok r
      | Some ch =>
          if Ascii.eqb ch quotechar then Ok (set_state r QUOTE_IN_QUOTED_FIELD)
          else Ok (parse_add_char r ch IN_QUOTED_FIELD)
      end
  | QUOTE_IN_QUOTED_FIELD =>
      match c with
      | None => Ok (parse_save_field r START_RECORD)
      | Some ch =>
          if Ascii.eqb ch quotechar then Ok (parse_add_char r ch IN_QUOTED_FIELD)
          else if Ascii.eqb ch delimiter then Ok (parse_save_field r START_FIELD)
          else if is_newline ch then Ok (parse_save_field r EAT_CRNL)
          else Ok (parse_add_char r ch IN_FIELD)
      end
  | EAT_CRNL =>
      match c with
      | None => Ok (set_state r START_RECORD)
      | Some ch => if is_newline ch then Ok r else Raise CsvError
      end
  end.

Fixpoint parse_chars (r : reader) (line : string) : result reader :=
  match line with
  | EmptyString => Ok r
  | String c rest => r' ← parse_process_char r (Some c); parse_chars r' rest
  end.

Definition parse_line (r : reader) (line : string) : result reader :=
  r' ← parse_chars r line; parse_process_char r' None.

(** The rows the reader yields over the lines of a file. A record may span
    several lines; input that ends inside a field still yields it. *)
Fixpoint rows_from (r : reader) (lines : list string) : result (list (list string)) :=
  match lines with
  | [] =>
      match field r, state r with
      | EmptyString, IN_QUOTED_FIELD | String _ _, _ =>
          Ok [fields (parse_save_field r START_RECORD)]
      | EmptyString, _ => Ok []
      end
  | line :: rest =>
      r' ← parse_line r line;
      match state r' with
      | START_RECORD => rows ← rows_from parse_reset rest; Ok (fields r' :: rows)
      | _ => rows_from r' rest
      end
  end.

Definition reader_rows (lines : list string) : result (list (list string)) :=
  rows_from parse_reset lines.

End Csv.

(** ** The two cache files *)

Module Cache.

Record files : Type := Files {
  codes_file : list Z;
  labels_file : string
}.

(** The cell "write codes to file / write labels to file". *)
Definition write_cache (codes : Np.ndarray) (labels : list string) : files :=
  {| codes_file := Np.tofile codes;
     labels_file := Text.write (Csv.writerow labels) |}.

(** The cell "read codes and labels from file": first the labels... *)
Definition read_labels (f : files) : result Np.str_array :=
  rows ← Csv.reader_rows (Text.lines (Text.read (labels_file f)));
  Ok (Np.squeeze
        (Np.array (filter (fun each : list string => 0 < Py.len each) rows))).

(** ... then the codes, reshaped to [len(labels)] rows. *)
Definition read_cache (f : files) : result (Np.ndarray * Np.str_array) :=
  labels ← read_labels f;
  let codes := Np.fromfile (codes_file f) in
  n ← Np.len labels;
  codes ← Np.reshape codes n;
  Ok (codes, labels).

End Cache.

(** ** The subsets the split selects *)

Module Select.

(** [a[idx]] for an array of indices: the rows at those indices, in the
    order of the indices; [None] is the [IndexError] of an index past the
    end. *)
Definition rows_at {A} (a : list A) (idx : list nat) : option (list A) :=
  mapM (fun i => a !! i) idx.

Record subsets (X Y : Type) : Type := Subsets {
  train_x : list X; train_y : list Y;
  val_x : list X; val_y : list Y;
  test_x : list X; test_y : list Y
}.
Arguments Subsets {X Y}.
Arguments train_x {X Y}.
Arguments train_y {X Y}.
Arguments val_x {X Y}.
Arguments val_y {X Y}.
Arguments test_x {X Y}.
Arguments test_y {X Y}.

(** The last three lines of the split cell. *)
Definition select {X Y} (codes : list X) (labels_vecs : list Y)
    (p : Split.partition) : option (subsets X Y) :=
  train_x ← rows_at codes (Split.train_idx p);
  train_y ← rows_at labels_vecs (Split.train_idx p);
  val_x ← rows_at codes (Split.val_idx p);
  val_y ← rows_at labels_vecs (Split.val_idx p);
  test_x ← rows_at codes (Split.test_idx p);
  test_y ← rows_at labels_vecs (Split.test_idx p);
  Some (Subsets train_x train_y val_x val_y test_x test_y).

(** The cell from the pair scikit-learn returns on. *)
Definition split_cell {X Y} (codes : list X) (labels_vecs : list Y)
    (first : list nat * list nat) : option (subsets X Y) :=
  select codes labels_vecs (Split.holdout_split first).

(** The samples of a subset: feature row and target side by side. *)
Definition samples {X Y} (x : list X) (y : list Y) : list (X * Y) := zip x y.

End Select.

(** ** The accuracy operations of the graph *)

Module Metric.

Section Argmax.
Context {A : Type}.
Variable gt : A -> A -> bool.

(** The index of the largest entry seen so far while scanning a row; of equal
    entries the first is kept (TensorFlow leaves ties open). *)
Fixpoint argmax_from (best : A) (best_i i : nat) (row : list A) : nat :=
  match row with
  | [] => best_i
  | a :: rest =>
      if gt a best then argmax_from a i (S i) rest
      else argmax_from best best_i (S i) rest
  end.

(** [tf.argmax(t, 1)] on one row; an empty row has no largest entry. *)
Definition argmax (row : list A) : option nat :=
  match row with
  | [] => None
  | a :: rest => Some (argmax_from a 0 1 rest)
  end.

End Argmax.

(** [correct_pred = tf.equal(tf.argmax(predicted, 1), tf.argmax(labels_, 1))],
    row by row; [predicted] and [labels_] have one row per fed sample. *)
Definition correct_pred {F} (gt : F -> F -> bool)
    (predicted : list (list F)) (labels_ : list (list Z)) : list (option bool) :=
  zip_with (fun p l =>
              i ← argmax gt p;
              j ← argmax Z.gtb l;
              Some (bool_decide (i = j)))
           predicted labels_.

End Metric.

(** ** The download progress bar *)

Module Progress.

(** What [hook] reads and writes of a [DLProgress] bar: [total], the counter
    [n] that [tqdm.update] adds to, and [last_block]. *)
Record bar : Type := Bar {
  total : option Z;
  n : Z;
  last_block : Z
}.

(** A bar just created: nothing counted, [last_block = 0] from the class. *)
Definition fresh : bar := {| total := None; n := 0; last_block := 0 |}.

(** [self.update(delta)] *)
Definition update (b : bar) (delta : Z) : bar :=
  {| total := total b; n := n b + delta; last_block := last_block b |}.

(** [hook(self, block_num, block_size, total_size)] *)
Definition hook (b : bar) (block_num block_size : Z) (total_size : option Z)
  : bar :=
  let b1 := {| total := total_size; n := n b; last_block := last_block b |} in
  let b2 := update b1 ((block_num - last_block b1) * block_size) in
  {| total := total b2; n := n b2; last_block := block_num |}.

(** The reports of one download: block number and total size of each call,
    the block size being the same throughout. *)
Definition report (block_size : Z) (b : bar) (calls : list (Z * option Z))
  : bar :=
  foldl (fun b c => hook b c.1 block_size c.2) b calls.

End Progress.

(** ** The split cell, statement by statement *)

Module Cell.

(** The pairs of names the last three statements of the split cell bind:
    [None] for a pair this run of the cell did not bind. *)
Record names (X Y : Type) : Type := Names {
  train : option (list X * list Y);
  val : option (list X * list Y);
  test : option (list X * list Y)
}.
Arguments Names {X Y}.
Arguments train {X Y}.
Arguments val {X Y}.
Arguments test {X Y}.

(** The right-hand side [codes[idx], labels_vecs[idx]] of one statement:
    both selections are made before either name is bound. *)
Definition pair_at {X Y} (codes : list X) (labels_vecs : list Y)
    (idx : list nat) : option (list X * list Y) :=
  x ← Select.rows_at codes idx;
  y ← Select.rows_at labels_vecs idx;
  Some (x, y).

(** The three assignments in order: the names bound when the cell ends, and
    whether it ended in [IndexError]. *)
Definition assign {X Y} (codes : list X) (labels_vecs : list Y)
    (p : Split.partition) : names X Y * bool :=
  match pair_at codes labels_vecs (Split.train_idx p) with
  | None => (Names None None None, true)
  | Some tr =>
      match pair_at codes labels_vecs (Split.val_idx p) with
      | None => (Names (Some tr) None None, true)
      | Some va =>
          match pair_at codes labels_vecs (Split.test_idx p) with
          | None => (Names (Some tr) (Some va) None, true)
          | Some te => (Names (Some tr) (Some va) (Some te), false)
          end
      end
  end.

(** An index array within the bounds of both arrays. *)
Definition in_range {X Y} (codes : list X) (labels_vecs : list Y)
    (idx : list nat) : Prop :=
  Forall (fun i => (i < length codes)%nat /\ (i < length labels_vecs)%nat) idx.

End Cell.

(** * Properties *)

(** ** Slices and ranges *)

Section SliceFacts.
Context {A : Type}.
Implicit Types x : list A.

Lemma slice_from_drop x (lo : Z) :
  0 <= lo -> Py.slice_from x lo = drop (Z.to_nat lo) x.
Proof.
  intros Hlo. unfold Py.slice_from, Py.clip, Py.len.
  destruct (Z.ltb_spec lo 0) as [|_]; [lia|].
  destruct (Z.le_gt_cases lo (Z.of_nat (length x))) as [Hle|Hgt].
  - by rewrite Z.min_l.
  - rewrite Z.min_r by lia. rewrite Nat2Z.id.
    rewrite (drop_ge x (length x)) by lia. by rewrite drop_ge by lia.
Qed.

Lemma slice_take_drop x (lo n : Z) :
  0 <= lo -> 0 <= n ->
  Py.slice x lo (lo + n) = take (Z.to_nat n) (drop (Z.to_nat lo) x).
Proof.
  intros Hlo Hn. unfold Py.slice, Py.clip, Py.len.
  destruct (Z.ltb_spec lo 0) as [|_]; [lia|].
  destruct (Z.ltb_spec (lo + n) 0) as [|_]; [lia|].
  destruct (Z.le_gt_cases lo (Z.of_nat (length x))) as [Hle|Hgt].
  - rewrite (Z.min_l lo) by lia.
    destruct (Z.le_gt_cases (lo + n) (Z.of_nat (length x))).
    + rewrite Z.min_l by lia. f_equal. lia.
    + rewrite Z.min_r by lia.
      rewrite (take_ge _ (Z.to_nat n)) by (rewrite length_drop; lia).
      apply take_ge. rewrite length_drop. lia.
  - rewrite !Z.min_r by lia. rewrite Z.sub_diag. simpl.
    rewrite (drop_ge x (Z.to_nat lo)) by lia. by destruct (Z.to_nat n).
Qed.

Lemma slice_prefix x (n : Z) :
  0 <= n -> Py.slice x 0 n = take (Z.to_nat n) x.
Proof.
  intros Hn. by rewrite <- (Z.add_0_l n) at 1; rewrite slice_take_drop.
Qed.

End SliceFacts.

Lemma range_len_steps (n step : Z) :
  0 <= n -> 0 < step -> Py.range_len 0 (n * step) step = Z.to_nat n.
Proof.
  intros Hn Hs. unfold Py.range_len.
  destruct (Z.ltb_spec 0 step) as [_|]; [|lia]. f_equal.
  replace (n * step - 0 + step - 1) with (step - 1 + n * step) by lia.
  rewrite Z.div_add by lia. rewrite Z.div_small; lia.
Qed.

Lemma range_steps (n step : Z) :
  0 <= n -> 0 < step ->
  Py.range 0 (n * step) step
  = Ok (map (fun k : nat => Z.of_nat k * step) (seq 0 (Z.to_nat n))).
Proof.
  intros Hn Hs. unfold Py.range.
  destruct (Z.eqb_spec step 0) as [|_]; [lia|].
  by rewrite range_len_steps.
Qed.

(** ** get_batches *)

Section ChunkFacts.
Context {A : Type}.

(** Consecutive chunks of one size, followed by the rest, rebuild the list. *)
Lemma concat_chunks (x : list A) (size i m : nat) :
  concat (map (fun k => take size (drop (k * size) x)) (seq i m))
    ++ drop ((i + m) * size) x
  = drop (i * size) x.
Proof.
  revert i. induction m as [|m IH]; intros i; simpl.
  - by rewrite Nat.add_0_r.
  - rewrite <- app_assoc.
    replace ((i + S m) * size)%nat with ((S i + m) * size)%nat by lia.
    rewrite IH. simpl.
    rewrite <- (take_drop size (drop (i * size) x)) at 2.
    by rewrite drop_drop, (Nat.add_comm size).
Qed.

Lemma yielded_foldr {B} (f : B -> A) (l : list B) :
  yielded (foldr (fun b rest => Yield (f b) rest) Stop l) = map f l.
Proof. induction l as [|b l IH]; simpl; by rewrite ?IH. Qed.

Lemma raised_foldr {B} (f : B -> A) (l : list B) :
  raised (foldr (fun b rest => Yield (f b) rest) Stop l) = None.
Proof. by induction l. Qed.

End ChunkFacts.

Section GetBatchesFacts.
Context {X Y : Type}.
Variables (x : list X) (y : list Y) (n_batches : Z).
Hypothesis Hn : 1 <= n_batches.
Hypothesis Hlen : n_batches <= Py.len x.

Let batch_size : Z := Py.len x / n_batches.
Let size : nat := Z.to_nat batch_size.
Let m : nat := Z.to_nat (n_batches - 1).

Lemma batch_size_pos : 0 < batch_size.
Proof.
  subst batch_size. apply Z.div_str_pos. lia.
Qed.

(** The batches in closed form: [n_batches - 1] chunks of [batch_size]
    items, then everything that is left. *)
Lemma get_batches_yielded :
  raised (Batches.get_batches x y n_batches) = None /\
  yielded (Batches.get_batches x y n_batches)
  = map (fun k => (take size (drop (k * size) x), take size (drop (k * size) y)))
        (seq 0 m)
    ++ [(drop (m * size) x, drop (m * size) y)].
Proof.
  pose proof batch_size_pos as Hpos.
  unfold Batches.get_batches, Py.floordiv.
  destruct (Z.eqb_spec n_batches 0) as [|_]; [lia|].
  fold batch_size. rewrite range_steps by lia.
  rewrite raised_foldr, yielded_foldr. split; [done|].
  replace (Z.to_nat n_batches) with (S m) by (subst m; lia).
  assert (Hconv : forall k : nat,
             Z.to_nat (Z.of_nat k * batch_size) = (k * size)%nat).
  { intros k. subst size. rewrite Z2Nat.inj_mul by lia. by rewrite Nat2Z.id. }
  rewrite seq_S, !map_app. simpl. f_equal.
  - rewrite map_map. apply map_ext_in. intros k Hk%in_seq.
    unfold Batches.batch_at.
    destruct (Z.eqb_spec (Z.of_nat k * batch_size) ((n_batches - 1) * batch_size))
      as [Heq|_]; [subst m; nia|]. simpl.
    rewrite !slice_take_drop by lia. by rewrite Hconv.
  - unfold Batches.batch_at.
    replace (Z.of_nat m) with (n_batches - 1) by (subst m; lia).
    rewrite Z.eqb_refl. simpl.
    rewrite !slice_from_drop by nia.
    replace (n_batches - 1) with (Z.of_nat m) by (subst m; lia).
    by rewrite Hconv.
Qed.

Lemma get_batches_concat :
  concat (map fst (yielded (Batches.get_batches x y n_batches))) = x /\
  concat (map snd (yielded (Batches.get_batches x y n_batches))) = y.
Proof.
  destruct get_batches_yielded as [_ ->].
  rewrite !map_app, !map_map, !concat_app. simpl. rewrite !app_nil_r.
  pose proof (concat_chunks x size 0 m) as Hx.
  pose proof (concat_chunks y size 0 m) as Hy.
  simpl in Hx, Hy. by rewrite Hx, Hy.
Qed.

Lemma get_batches_sizes (i : nat) (b : list X * list Y) :
  yielded (Batches.get_batches x y n_batches) !! i = Some b ->
  Py.len b.1 = if bool_decide (Z.of_nat i = n_batches - 1)
               then batch_size + Py.len x mod n_batches
               else batch_size.
Proof.
  pose proof batch_size_pos as Hpos.
  destruct get_batches_yielded as [_ ->]. intros Hb.
  assert (Hdiv : Py.len x = n_batches * batch_size + Py.len x mod n_batches)
    by (subst batch_size; apply Z.div_mod; lia).
  assert (Hmod : 0 <= Py.len x mod n_batches < n_batches)
    by (apply Z.mod_pos_bound; lia).
  assert (Hm : Z.of_nat m = n_batches - 1) by (subst m; lia).
  assert (Hsz : Z.of_nat size = batch_size) by (subst size; lia).
  unfold Py.len in *.
  apply lookup_app_Some in Hb as [Hb|[Hge Hb]].
  - apply list_lookup_fmap_Some in Hb as (k & -> & [-> Hk]%lookup_seq).
    simpl in *. rewrite bool_decide_eq_false_2 by lia.
    rewrite length_take, length_drop. nia.
  - rewrite length_map, length_seq in Hge, Hb.
    apply list_lookup_singleton_Some in Hb as [Hi <-]. simpl.
    rewrite bool_decide_eq_true_2 by lia.
    rewrite length_drop. nia.
Qed.

End GetBatchesFacts.

(** C5. Training-loop coverage: with at least one batch requested and at
    least that many samples, [get_batches] ends normally after exactly
    [n_batches] batches whose concatenation, in order, is the training set
    itself (features and targets alike), so every sample sits in exactly one
    minibatch; every batch but the last has [len(x)//n_batches] samples and
    the last one takes the remainder as well. *)
Theorem get_batches_covers_training_set {X Y : Type}
    (x : list X) (y : list Y) (n_batches : Z) :
  1 <= n_batches ->
  n_batches <= Py.len x ->
  let g := Batches.get_batches x y n_batches in
  raised g = None /\
  Py.len (yielded g) = n_batches /\
  concat (map fst (yielded g)) = x /\
  concat (map snd (yielded g)) = y /\
  forall (i : nat) (b : list X * list Y),
    yielded g !! i = Some b ->
    Py.len b.1 = if bool_decide (Z.of_nat i = n_batches - 1)
                 then Py.len x / n_batches + Py.len x mod n_batches
                 else Py.len x / n_batches.
Proof.
  intros Hn Hlen g. subst g.
  destruct (get_batches_yielded x y n_batches Hn Hlen) as [Hr Hy].
  destruct (get_batches_concat x y n_batches Hn Hlen) as [Hcx Hcy].
  repeat split; [done| |done|done|].
  - rewrite Hy. unfold Py.len.
    rewrite length_app, length_map, length_seq. simpl. lia.
  - intros i b. apply get_batches_sizes; done.
Qed.

Lemma get_batches_covers_training_set_witness :
  1 <= 3 /\ 3 <= Py.len [1; 2; 3; 4; 5; 6; 7] /\
  let g := Batches.get_batches [1; 2; 3; 4; 5; 6; 7] [10; 20; 30; 40; 50; 60; 70] 3 in
  raised g = None /\
  Py.len (yielded g) = 3 /\
  concat (map fst (yielded g)) = [1; 2; 3; 4; 5; 6; 7] /\
  concat (map snd (yielded g)) = [10; 20; 30; 40; 50; 60; 70] /\
  forall (i : nat) (b : list Z * list Z),
    yielded g !! i = Some b ->
    Py.len b.1 = if bool_decide (Z.of_nat i = 3 - 1)
                 then Py.len [1; 2; 3; 4; 5; 6; 7] / 3 + Py.len [1; 2; 3; 4; 5; 6; 7] mod 3
                 else Py.len [1; 2; 3; 4; 5; 6; 7] / 3.
Proof.
  split; [lia|]. split; [vm_compute; discriminate|].
  apply (get_batches_covers_training_set
           [1; 2; 3; 4; 5; 6; 7] [10; 20; 30; 40; 50; 60; 70] 3).
  - lia.
  - vm_compute; discriminate.
Defined.

(** C10. With fewer samples than requested batches the batch size
    [len(x)//n_batches] is zero, [range] refuses the zero step, and the
    generator raises [ValueError] on its first step: nothing is yielded. *)
Theorem get_batches_too_few_samples {X Y : Type}
    (x : list X) (y : list Y) (n_batches : Z) :
  Py.len x < n_batches ->
  Py.len x / n_batches = 0 /\
  Batches.get_batches x y n_batches = Throw ValueError /\
  yielded (Batches.get_batches x y n_batches) = [].
Proof.
  intros Hlt.
  assert (Hlen : 0 <= Py.len x) by (unfold Py.len; lia).
  assert (Hz : Py.len x / n_batches = 0) by (apply Z.div_small; lia).
  assert (Hg : Batches.get_batches x y n_batches = Throw ValueError).
  { unfold Batches.get_batches, Py.floordiv.
    destruct (Z.eqb_spec n_batches 0) as [|_]; [lia|].
    rewrite Hz. unfold Py.range. by rewrite Z.eqb_refl. }
  by rewrite Hg.
Qed.

Lemma get_batches_too_few_samples_witness :
  Py.len [1; 2] < 3 /\
  Py.len [1; 2] / 3 = 0 /\
  Batches.get_batches [1; 2] [10; 20] 3 = Throw ValueError /\
  yielded (Batches.get_batches [1; 2] [10; 20] 3) = [].
Proof.
  split; [reflexivity|].
  apply (get_batches_too_few_samples [1; 2] [10; 20] 3). reflexivity.
Defined.

(** ** The holdout split *)

Lemma half_val_len_bounds (val_idx : list nat) :
  0 <= Split.half_val_len val_idx <= Py.len val_idx.
Proof.
  unfold Split.half_val_len, Py.len.
  split; [apply Z.div_pos; lia | apply Z.div_le_upper_bound; lia].
Qed.

(** The two halves are a prefix of the holdout and what follows it. *)
Lemma holdout_split_halves (first : list nat * list nat) :
  let p := Split.holdout_split first in
  let h := Z.to_nat (Split.half_val_len first.2) in
  Split.train_idx p = first.1 /\
  Split.val_idx p = take h first.2 /\
  Split.test_idx p = drop h first.2.
Proof.
  destruct first as [train holdout]. simpl.
  pose proof (half_val_len_bounds holdout) as [H0 _].
  by rewrite slice_prefix, slice_from_drop.
Qed.

(** C4. Split partition: when the first split hands out every index below
    [n] exactly once, so do the three index arrays after the holdout is cut
    in two; as sets they are pairwise disjoint and their union is
    [{0, ..., n-1}]. *)
Theorem holdout_split_partitions (n : nat) (first : list nat * list nat) :
  Split.shuffle_split n first ->
  let p := Split.holdout_split first in
  let train : gset nat := list_to_set (Split.train_idx p) in
  let val : gset nat := list_to_set (Split.val_idx p) in
  let test : gset nat := list_to_set (Split.test_idx p) in
  Split.train_idx p ++ Split.val_idx p ++ Split.test_idx p ≡ₚ seq 0 n /\
  train ∪ val ∪ test = set_seq 0 n /\
  train ## val /\ train ## test /\ val ## test.
Proof.
  intros Hsplit p train val test.
  destruct (holdout_split_halves first) as (Ht & Hv & Hs).
  fold p in Ht, Hv, Hs. subst train val test. rewrite Ht, Hv, Hs.
  set (h := Z.to_nat (Split.half_val_len first.2)).
  assert (Hperm : first.1 ++ take h first.2 ++ drop h first.2 ≡ₚ seq 0 n)
    by (by rewrite take_drop).
  assert (Hnd : NoDup (first.1 ++ take h first.2 ++ drop h first.2))
    by (rewrite Hperm; apply NoDup_seq).
  apply NoDup_app in Hnd as (_ & Htrain & Hnd).
  apply NoDup_app in Hnd as (_ & Hval & _).
  split; [done|]. split.
  - rewrite <- list_to_set_seq, <- Hperm, !list_to_set_app_L.
    by rewrite (assoc_L (∪)).
  - repeat split; intros i Hi1%elem_of_list_to_set Hi2%elem_of_list_to_set.
    + apply (Htrain i Hi1). set_solver.
    + apply (Htrain i Hi1). set_solver.
    + by apply (Hval i Hi1).
Qed.

Lemma holdout_split_partitions_witness :
  Split.shuffle_split 8 ([0; 5; 6]%nat, [1; 2; 3; 4; 7]%nat) /\
  let p := Split.holdout_split ([0; 5; 6]%nat, [1; 2; 3; 4; 7]%nat) in
  let train : gset nat := list_to_set (Split.train_idx p) in
  let val : gset nat := list_to_set (Split.val_idx p) in
  let test : gset nat := list_to_set (Split.test_idx p) in
  Split.train_idx p ++ Split.val_idx p ++ Split.test_idx p ≡ₚ seq 0 8 /\
  train ∪ val ∪ test = set_seq 0 8 /\
  train ## val /\ train ## test /\ val ## test.
Proof.
  assert (H : Split.shuffle_split 8 ([0; 5; 6]%nat, [1; 2; 3; 4; 7]%nat)).
  { unfold Split.shuffle_split. by apply (bool_decide_unpack _); vm_compute. }
  split; [exact H|].
  exact (holdout_split_partitions 8 ([0; 5; 6]%nat, [1; 2; 3; 4; 7]%nat) H).
Defined.

(** C6, as the code has it: the validation indices are the first
    [len(val_idx) // 2] entries of the holdout and the test indices all the
    entries after them, in order; the test half is as long as the validation
    half when the holdout has an even length and one longer when it is
    odd. *)
Theorem holdout_halving (first : list nat * list nat) :
  let p := Split.holdout_split first in
  Split.val_idx p ++ Split.test_idx p = first.2 /\
  Py.len (Split.val_idx p) = Py.len first.2 / 2 /\
  Py.len (Split.test_idx p) = Py.len (Split.val_idx p) + Py.len first.2 mod 2.
Proof.
  intros p. destruct (holdout_split_halves first) as (_ & Hv & Hs).
  fold p in Hv, Hs. rewrite Hv, Hs.
  pose proof (half_val_len_bounds first.2) as [H0 Hle].
  pose proof (Z.div_mod (Py.len first.2) 2 ltac:(lia)) as Hdm.
  unfold Split.half_val_len, Py.len in *.
  rewrite take_drop, length_take, length_drop. repeat split; lia.
Qed.

(** C6 as stated fails on a holdout of odd length: of three indices the
    validation set gets one and the test set two. *)
Lemma holdout_halving_odd :
  let p := Split.holdout_split ([0; 4]%nat, [1; 2; 3]%nat) in
  Split.val_idx p = [1%nat] /\ Split.test_idx p = [2; 3]%nat /\
  length (Split.val_idx p) <> length (Split.test_idx p).
Proof. vm_compute. repeat split; discriminate. Qed.

(** ** The batching loop *)

Lemma mod_succ (a b : Z) :
  0 < b ->
  (a + 1) mod b = if a mod b + 1 =? b then 0 else a mod b + 1.
Proof.
  intros Hb. pose proof (Z.mod_pos_bound a b Hb) as Hr.
  rewrite <- Zplus_mod_idemp_l.
  destruct (Z.eqb_spec (a mod b + 1) b) as [->|Hne].
  - apply Z_mod_same_full.
  - apply Z.mod_small. lia.
Qed.

Lemma bind_Ok {A B} (a : A) (k : A -> result B) : (Ok a ≫= k) = k a.
Proof. reflexivity. Qed.

Lemma concatenate_snoc {A} (arrays : list (list A)) (a : list A) :
  Np.concatenate (arrays ++ [a]) = Ok (concat arrays ++ a).
Proof.
  unfold Np.concatenate. rewrite concat_app. simpl. rewrite app_nil_r.
  by destruct arrays.
Qed.

Section PipelineFacts.
Context {Image Code : Type}.
Variables (load_image : string -> result Image) (relu6 : Image -> Code).
Variable batch_size : Z.
Hypothesis Hbs : 1 <= batch_size.

Let file_step := Pipeline.file_step load_image relu6 batch_size.
Let class_step := Pipeline.class_step load_image relu6 batch_size.

Lemma for_each_cons {S A} (a : A) (rest : list A)
    (body : S -> A -> result S) (st : S) :
  for_each (a :: rest) body st = body st a ≫= for_each rest body.
Proof. reflexivity. Qed.

(** One iteration on a file that loads. *)
Lemma file_step_loaded (each class_path file : string) (n ii : Z)
    (st : Pipeline.state) (img : Image) :
  load_image (Pipeline.path_join class_path file) = Ok img ->
  file_step each class_path n st (ii, file)
  = let images := concat (Pipeline.batch st) ++ [img] in
    Ok (if (ii mod batch_size =? 0) || (ii =? n)
        then {| Pipeline.codes :=
                  Some (Pipeline.rows (Pipeline.codes st) ++ map relu6 images);
                Pipeline.labels := Pipeline.labels st ++ [each];
                Pipeline.batch := [];
                Pipeline.runs := Pipeline.runs st ++ [images] |}
        else {| Pipeline.codes := Pipeline.codes st;
                Pipeline.labels := Pipeline.labels st ++ [each];
                Pipeline.batch := Pipeline.batch st ++ [[img]];
                Pipeline.runs := Pipeline.runs st |}).
Proof.
  intros Himg. unfold file_step, Pipeline.file_step.
  rewrite Himg, bind_Ok. unfold Py.mod_.
  destruct (Z.eqb_spec batch_size 0) as [|_]; [lia|]. rewrite bind_Ok.
  rewrite concatenate_snoc, bind_Ok. simpl.
  destruct ((ii mod batch_size =? 0) || (ii =? n)); [|done].
  by destruct (Pipeline.codes st).
Qed.

(** The inner loop from file number [ii] on, entered with
    [(ii - 1) mod batch_size] images waiting in [batch]. *)
Lemma file_loop (each class_path : string) (n : Z) (files : list string) :
  forall (imgs : list Image) (ii : Z) (st : Pipeline.state),
    files <> [] ->
    Pipeline.loaded load_image class_path files imgs ->
    1 <= ii ->
    n = ii - 1 + Py.len files ->
    Py.len (concat (Pipeline.batch st)) = (ii - 1) mod batch_size ->
    exists full last,
      for_each (Py.enumerate files ii) (file_step each class_path n) st
      = Ok {| Pipeline.codes :=
                Some (Pipeline.rows (Pipeline.codes st)
                      ++ map relu6 (concat (Pipeline.batch st) ++ imgs));
              Pipeline.labels := Pipeline.labels st ++ map (fun _ => each) files;
              Pipeline.batch := [];
              Pipeline.runs := Pipeline.runs st ++ full ++ [last] |} /\
      concat (full ++ [last]) = concat (Pipeline.batch st) ++ imgs /\
      Forall (fun c : list Image => Py.len c = batch_size) full /\
      0 < Py.len last <= batch_size.
Proof.
  induction files as [|file files IH]; intros imgs ii st Hne Hload Hii Hn Hpend;
    [done|].
  apply Forall2_cons_inv_l in Hload as (img & imgs' & Himg & Hload & ->).
  pose proof (Z.mod_pos_bound (ii - 1) batch_size ltac:(lia)) as Hr.
  pose proof (mod_succ (ii - 1) batch_size ltac:(lia)) as Hsucc.
  replace (ii - 1 + 1) with ii in Hsucc by lia.
  assert (Hchunk : Py.len (concat (Pipeline.batch st) ++ [img])
                   = (ii - 1) mod batch_size + 1).
  { unfold Py.len in *. rewrite length_app. simpl. lia. }
  cbn [Py.enumerate]. rewrite for_each_cons, (file_step_loaded _ _ _ _ _ _ img Himg).
  cbv zeta. rewrite bind_Ok.
  destruct files as [|file' files].
  - (* the last file of the class: the batch runs whatever its size *)
    apply Forall2_nil_inv_l in Hload as ->. clear IH.
    assert (Hlast : ii = n) by (unfold Py.len in Hn; simpl in Hn; lia).
    rewrite Hlast, Z.eqb_refl, orb_true_r. simpl.
    exists [], (concat (Pipeline.batch st) ++ [img]). simpl.
    rewrite app_nil_r. split; [done|split; [done|split; [constructor|lia]]].
  - destruct (Z.eqb_spec ii n) as [Heq|_];
      [unfold Py.len in Hn; simpl in Hn; lia|].
    rewrite orb_false_r.
    destruct (Z.eqb_spec (ii mod batch_size) 0) as [Hz|Hnz].
    + (* a full batch runs *)
      set (st1 := {| Pipeline.codes := _ |}).
      destruct (IH imgs' (ii + 1) st1) as (full & last & Hrun & Hcat & Hfull & Hl);
        [done|done|lia| |..].
      { unfold Py.len in *. simpl in *. lia. }
      { simpl. replace (ii + 1 - 1) with ii by lia. by rewrite Hz. }
      exists ((concat (Pipeline.batch st) ++ [img]) :: full), last.
      rewrite Hrun. simpl in *.
      split; [|split; [|split; [|done]]].
      * f_equal. f_equal.
        -- f_equal. by rewrite !map_app, <- !app_assoc.
        -- by rewrite <- app_assoc.
        -- by rewrite <- !app_assoc.
      * rewrite Hcat. by rewrite <- !app_assoc.
      * constructor; [|done].
        rewrite Hchunk.
        destruct (Z.eqb_spec ((ii - 1) mod batch_size + 1) batch_size); lia.
    + (* the image waits in the batch *)
      set (st1 := {| Pipeline.codes := _ |}).
      destruct (IH imgs' (ii + 1) st1) as (full & last & Hrun & Hcat & Hfull & Hl);
        [done|done|lia| |..].
      { unfold Py.len in *. simpl in *. lia. }
      { simpl. replace (ii + 1 - 1) with ii by lia.
        rewrite concat_app. simpl. rewrite ?app_nil_r, Hchunk.
        destruct (Z.eqb_spec ((ii - 1) mod batch_size + 1) batch_size); lia. }
      assert (Hc : concat (Pipeline.batch st ++ [[img]])
                   = concat (Pipeline.batch st) ++ [img]).
      { rewrite concat_app. simpl. by rewrite ?app_nil_r. }
      subst st1. cbn [Pipeline.codes Pipeline.labels Pipeline.batch Pipeline.runs] in *.
      rewrite Hc in Hrun, Hcat.
      exists full, last. rewrite Hrun.
      split; [|split; [|done]].
      * f_equal. f_equal.
        -- by rewrite <- !app_assoc.
        -- by rewrite <- app_assoc.
      * rewrite Hcat. by rewrite <- !app_assoc.
Qed.

(** One class: entered with an empty [batch], the loop leaves it empty
    again, having run the images of the class in batches. *)
Lemma class_loop (st : Pipeline.state) (each : string) (files : list string)
    (imgs : list Image) :
  Pipeline.batch st = [] ->
  Pipeline.loaded load_image (Pipeline.data_dir +:+ each) files imgs ->
  exists chunks,
    class_step st (each, files)
    = Ok {| Pipeline.codes :=
              match files with
              | [] => Pipeline.codes st
              | _ => Some (Pipeline.rows (Pipeline.codes st) ++ map relu6 imgs)
              end;
            Pipeline.labels := Pipeline.labels st ++ map (fun _ => each) files;
            Pipeline.batch := [];
            Pipeline.runs := Pipeline.runs st ++ chunks |} /\
    concat chunks = imgs /\
    Pipeline.batched batch_size chunks /\
    (files = [] -> chunks = []).
Proof.
  intros Hbatch Hload. unfold class_step, Pipeline.class_step.
  destruct files as [|file files].
  - apply Forall2_nil_inv_l in Hload as ->. exists []. simpl.
    rewrite !app_nil_r, <- Hbatch. split; [by destruct st|].
    split; [done|]. split; [by left|done].
  - destruct (file_loop each (Pipeline.data_dir +:+ each)
                (Py.len (file :: files)) (file :: files) imgs 1 st)
      as (full & last & Hrun & Hcat & Hfull & Hlast);
      [done|done|lia|lia|by rewrite Hbatch|].
    exists (full ++ [last]). fold file_step. rewrite Hrun.
    rewrite Hbatch in *. simpl in *.
    split; [done|]. split; [done|]. split; [|done].
    right. by exists full, last.
Qed.

(** All classes, each with the images its files load to. *)
Lemma classes_loop (cs : list (string * list string)) :
  forall (imgss : list (list Image)) (st : Pipeline.state),
    Pipeline.batch st = [] ->
    Forall2 (fun c imgs =>
               Pipeline.loaded load_image (Pipeline.data_dir +:+ c.1) c.2 imgs)
            cs imgss ->
    exists st' chunkss,
      for_each cs class_step st = Ok st' /\
      Pipeline.labels st'
      = Pipeline.labels st ++ map fst (flat_map Pipeline.class_samples cs) /\
      Pipeline.rows (Pipeline.codes st')
      = Pipeline.rows (Pipeline.codes st) ++ map relu6 (concat imgss) /\
      (Pipeline.codes st' = None <->
       Pipeline.codes st = None /\ concat imgss = []) /\
      Pipeline.batch st' = [] /\
      Pipeline.runs st' = Pipeline.runs st ++ concat chunkss /\
      Forall2 (fun imgs chunks =>
                 concat chunks = imgs /\ Pipeline.batched batch_size chunks)
              imgss chunkss.
Proof.
  induction cs as [|[each files] cs IH]; intros imgss st Hbatch Hload.
  - apply Forall2_nil_inv_l in Hload as ->. exists st, []. simpl.
    rewrite !app_nil_r. repeat split; try done. tauto.
  - apply Forall2_cons_inv_l in Hload as (imgs & imgss' & Himgs & Hload & ->).
    destruct (class_loop st each files imgs Hbatch Himgs)
      as (chunks & Hrun & Hcat & Hbatched & _).
    rewrite for_each_cons, Hrun, bind_Ok.
    set (st1 := {| Pipeline.codes := _ |}).
    destruct (IH imgss' st1 eq_refl Hload)
      as (st' & chunkss & Hrun' & Hl & Hr & Hnone & Hb & Hruns & Hall).
    exists st', (chunks :: chunkss). rewrite Hrun'.
    subst st1. cbn [Pipeline.codes Pipeline.labels Pipeline.batch Pipeline.runs] in *.
    assert (Hlen : length files = length imgs) by (by eapply Forall2_length).
    split; [done|]. split; [|split; [|split; [|split; [done|split]]]].
    + rewrite Hl. simpl. rewrite map_app, <- app_assoc. do 2 f_equal.
      unfold Pipeline.class_samples. by rewrite !map_map.
    + rewrite Hr. simpl. rewrite map_app, app_assoc. f_equal.
      destruct files as [|file files]; [|done].
      destruct imgs; [|done]. by rewrite app_nil_r.
    + rewrite Hnone. simpl.
      destruct files as [|file files], imgs as [|img imgs]; try done.
      split; [by intros [? _]|by intros [_ ?]].
    + rewrite Hruns. simpl. by rewrite <- app_assoc.
    + by constructor.
Qed.

(** The images of a dataset, grouped by class. *)
Lemma loaded_by_class (cs : list (string * list string)) :
  forall imgs : list Image,
    Forall2 (fun (s : string * string) img => load_image s.2 = Ok img)
            (flat_map Pipeline.class_samples cs) imgs ->
    exists imgss,
      imgs = concat imgss /\
      Forall2 (fun c imgs =>
                 Pipeline.loaded load_image (Pipeline.data_dir +:+ c.1) c.2 imgs)
              cs imgss.
Proof.
  induction cs as [|c cs IH]; intros imgs Hload; simpl in Hload.
  - apply Forall2_nil_inv_l in Hload as ->. by exists [].
  - apply Forall2_app_inv_l in Hload as (imgs1 & imgs2 & H1 & H2 & ->).
    destruct (IH imgs2 H2) as (imgss & -> & Hall).
    exists (imgs1 :: imgss). split; [done|]. constructor; [|done].
    unfold Pipeline.class_samples in H1. by apply Forall2_fmap_l in H1.
Qed.

(** C2. Alignment: with a batch size of at least one and every file loading,
    the loop ends normally with one feature row and one label per image,
    both in traversal order: row [i] is the network's row for the image of
    sample [i] and label [i] is the class of sample [i]. With no image at
    all [codes] is still [None]. *)
Theorem pipeline_alignment (root : Pipeline.dataset) (imgs : list Image) :
  Forall2 (fun (s : string * string) img => load_image s.2 = Ok img)
          (Pipeline.samples root) imgs ->
  exists st,
    Pipeline.run load_image relu6 batch_size root = Ok st /\
    Pipeline.labels st = map fst (Pipeline.samples root) /\
    Pipeline.rows (Pipeline.codes st) = map relu6 imgs /\
    (Pipeline.codes st = None <-> Pipeline.samples root = []) /\
    length (Pipeline.rows (Pipeline.codes st)) = length (Pipeline.samples root) /\
    length (Pipeline.labels st) = length (Pipeline.samples root) /\
    forall (i : nat) (label path : string),
      Pipeline.samples root !! i = Some (label, path) ->
      exists img,
        load_image path = Ok img /\
        Pipeline.labels st !! i = Some label /\
        Pipeline.rows (Pipeline.codes st) !! i = Some (relu6 img).
Proof.
  intros Hload. unfold Pipeline.samples in *.
  destruct (loaded_by_class _ _ Hload) as (imgss & -> & Hall).
  destruct (classes_loop _ imgss Pipeline.init eq_refl Hall)
    as (st & chunkss & Hrun & Hl & Hr & Hnone & _).
  simpl in Hl, Hr, Hnone.
  pose proof (Forall2_length _ _ _ Hload) as Hlen.
  exists st. split; [exact Hrun|]. split; [done|]. split; [done|].
  split; [|split; [|split]].
  - rewrite Hnone. split.
    + intros [_ Hnil]. rewrite Hnil in Hlen. by apply nil_length_inv.
    + intros Hnil. rewrite Hnil in Hlen. split; [done|].
      symmetry in Hlen. by apply nil_length_inv.
  - by rewrite Hr, length_map.
  - by rewrite Hl, length_map.
  - intros i label path Hi.
    destruct (Forall2_lookup_l _ _ _ _ _ Hload Hi) as (img & Himg & Hok).
    exists img. split; [done|]. rewrite Hl, Hr, !list_lookup_fmap, Hi, Himg.
    done.
Qed.

(** C3. Batch completeness: with a batch size of at least one and every file
    loading, the loop ends normally and the batches handed to the network
    are, class after class, the images of that class cut into consecutive
    batches: their sizes add up to the file count of the class, they are
    full but possibly the last, which is not empty, nothing is left in
    [batch], and a class without files runs no batch. *)
Theorem pipeline_batches_complete (root : Pipeline.dataset)
    (imgss : list (list Image)) :
  Forall2 (fun c imgs =>
             Pipeline.loaded load_image (Pipeline.data_dir +:+ c.1) c.2 imgs)
          (Pipeline.classes root) imgss ->
  exists st chunkss,
    Pipeline.run load_image relu6 batch_size root = Ok st /\
    Pipeline.runs st = concat chunkss /\
    Pipeline.batch st = [] /\
    length chunkss = length (Pipeline.classes root) /\
    forall (k : nat) (c : string * list string) (chunks : list (list Image)),
      Pipeline.classes root !! k = Some c ->
      chunkss !! k = Some chunks ->
      imgss !! k = Some (concat chunks) /\
      sum_list (length <$> chunks) = length c.2 /\
      Pipeline.batched batch_size chunks /\
      (c.2 = [] -> chunks = []).
Proof.
  intros Hall.
  destruct (classes_loop _ imgss Pipeline.init eq_refl Hall)
    as (st & chunkss & Hrun & _ & _ & _ & Hb & Hruns & Hchunks).
  exists st, chunkss. split; [exact Hrun|]. split; [done|]. split; [done|].
  pose proof (Forall2_length _ _ _ Hall) as Hlen1.
  pose proof (Forall2_length _ _ _ Hchunks) as Hlen2.
  split; [lia|].
  intros k c chunks Hc Hk.
  destruct (Forall2_lookup_r _ _ _ _ _ Hchunks Hk) as (imgs & Himgs & <- & Hbat).
  destruct (Forall2_lookup_l _ _ _ _ _ Hall Hc) as (imgs' & Himgs' & Hload).
  rewrite Himgs in Himgs'. injection Himgs' as <-.
  pose proof (Forall2_length _ _ _ Hload) as Hlen.
  split; [done|]. split; [by rewrite <- length_concat|]. split; [done|].
  intros Hnil. rewrite Hnil in Hlen. simpl in Hlen.
  destruct Hbat as [->|(full & last & -> & _ & Hlast)]; [done|].
  rewrite concat_app, length_app in Hlen. unfold Py.len in Hlast.
  simpl in Hlen. rewrite length_app in Hlen. lia.
Qed.

End PipelineFacts.

Lemma pipeline_alignment_witness :
  let load_image (path : string) : result string := Ok path in
  let root : Pipeline.dataset :=
    [("daisy", Some ["a"; "b"; "c"]); ("LICENSE.txt", None);
     ("empty", Some []); ("roses", Some ["d"; "e"])]%string in
  1 <= 2 /\
  Forall2 (fun (s : string * string) img => load_image s.2 = Ok img)
          (Pipeline.samples root) (map snd (Pipeline.samples root)) /\
  exists st,
    Pipeline.run load_image String.length 2 root = Ok st /\
    Pipeline.labels st = ["daisy"; "daisy"; "daisy"; "roses"; "roses"]%string /\
    Pipeline.rows (Pipeline.codes st) = [21; 21; 21; 21; 21]%nat.
Proof.
  intros load_image root.
  assert (Hbs : 1 <= 2) by lia.
  assert (Hload : Forall2 (fun (s : string * string) img => load_image s.2 = Ok img)
                    (Pipeline.samples root) (map snd (Pipeline.samples root)))
    by (vm_compute; repeat constructor).
  split; [exact Hbs|]. split; [exact Hload|].
  destruct (pipeline_alignment load_image String.length 2 Hbs root _ Hload)
    as (st & Hrun & Hl & Hr & _).
  exists st. split; [exact Hrun|]. split; [exact Hl|exact Hr].
Defined.

Lemma pipeline_batches_complete_witness :
  let load_image (path : string) : result string := Ok path in
  let root : Pipeline.dataset :=
    [("daisy", Some ["a"; "b"; "c"]); ("LICENSE.txt", None);
     ("empty", Some []); ("roses", Some ["d"; "e"])]%string in
  let imgss : list (list string) :=
    [["flower_photos/daisy/a"; "flower_photos/daisy/b"; "flower_photos/daisy/c"];
     []; ["flower_photos/roses/d"; "flower_photos/roses/e"]]%string in
  1 <= 2 /\
  Forall2 (fun c imgs =>
             Pipeline.loaded load_image (Pipeline.data_dir +:+ c.1) c.2 imgs)
          (Pipeline.classes root) imgss /\
  exists st chunkss,
    Pipeline.run load_image String.length 2 root = Ok st /\
    Pipeline.runs st = concat chunkss /\
    Pipeline.batch st = [] /\
    length chunkss = 3%nat.
Proof.
  intros load_image root imgss.
  assert (Hbs : 1 <= 2) by lia.
  assert (Hload : Forall2 (fun c imgs =>
                    Pipeline.loaded load_image (Pipeline.data_dir +:+ c.1) c.2 imgs)
                    (Pipeline.classes root) imgss)
    by (vm_compute; repeat constructor).
  split; [exact Hbs|]. split; [exact Hload|].
  destruct (pipeline_batches_complete load_image String.length 2 Hbs root imgss Hload)
    as (st & chunkss & Hrun & Hruns & Hb & Hlen & _).
  exists st, chunkss. split; [exact Hrun|]. split; [exact Hruns|].
  split; [exact Hb|exact Hlen].
Defined.

(** ** The training loop *)

Lemma every_fifth_succ (first : Z) (n : nat) :
  Train.every_fifth first (S n)
  = (if decide ((first + 1) mod 5 = 0) then [first + 1] else [])
    ++ Train.every_fifth (first + 1) n.
Proof.
  unfold Train.every_fifth. rewrite <- cons_seq, <- fmap_S_seq. simpl.
  rewrite filter_cons. replace (first + Z.of_nat 0 + 1) with (first + 1) by lia.
  assert (Heq : map (fun k : nat => first + Z.of_nat k + 1) (S <$> seq 0 n)
                = map (fun k : nat => first + 1 + Z.of_nat k + 1) (seq 0 n)).
  { rewrite <- list_fmap_compose. apply map_ext. intros k. simpl. lia. }
  rewrite Heq. by destruct (decide ((first + 1) mod 5 = 0)).
Qed.

Lemma every_fifth_app (first : Z) (n m : nat) :
  Train.every_fifth first (n + m)
  = Train.every_fifth first n ++ Train.every_fifth (first + Z.of_nat n) m.
Proof.
  revert first. induction n as [|n IH]; intros first.
  - simpl. by rewrite Z.add_0_r.
  - replace (S n + m)%nat with (S (n + m)) by lia.
    rewrite !every_fifth_succ, IH, <- app_assoc. do 3 f_equal. lia.
Qed.

Lemma get_batches_default_count {X Y : Type}
    (x : list X) (y : list Y) :
  10 <= Py.len x ->
  raised (Batches.get_batches x y Batches.default_n_batches) = None /\
  Py.len (yielded (Batches.get_batches x y Batches.default_n_batches)) = 10.
Proof.
  intros Hlen. unfold Batches.default_n_batches.
  destruct (get_batches_yielded x y 10 ltac:(lia) Hlen) as [Hr Hy].
  split; [done|]. rewrite Hy. unfold Py.len.
  rewrite length_app, length_map, length_seq. simpl. lia.
Qed.

Section TrainFacts.
Context {Row Target Params Loss Acc : Type}.
Variable minimize : Params -> list Row * list Target -> Params.
Variable eval_cost : Params -> list Row * list Target -> Loss.
Variable eval_accuracy : Params -> list Row * list Target -> Acc.
Variables (val_x : list Row) (val_y : list Target).

Let state := @Train.state Params Loss Acc.
Let batch_step := Train.batch_step minimize eval_cost eval_accuracy val_x val_y.
Let validation_check := @Train.validation_check _ _ _ Loss _ minimize eval_accuracy val_x val_y.

(** Fetching [accuracy] executes no assignment; fetching [optimizer] does. *)
Lemma sess_run_accuracy (feed : list Row * list Target) (vars : Params) :
  Train.sess_run minimize [Train.accuracy] feed vars = vars.
Proof. reflexivity. Qed.

Lemma sess_run_optimizer (feed : list Row * list Target) (vars : Params) :
  Train.sess_run minimize [Train.cost; Train.optimizer] feed vars
  = minimize vars feed.
Proof. reflexivity. Qed.

Lemma validation_check_frame (e : Z) (st : state) :
  Train.vars (validation_check e st) = Train.vars st /\
  Train.iteration (validation_check e st) = Train.iteration st /\
  Train.out (validation_check e st)
  = Train.out st
    ++ (if decide (Train.iteration st mod 5 = 0)
        then [Train.ValidationAcc e (Train.iteration st)
                (eval_accuracy (Train.vars st) (val_x, val_y))]
        else []).
Proof.
  unfold validation_check, Train.validation_check.
  destruct (Z.eqb_spec (Train.iteration st mod 5) 0) as [Hz|Hnz].
  - rewrite decide_True by done. by rewrite sess_run_accuracy.
  - rewrite decide_False by done. by rewrite app_nil_r.
Qed.

Lemma batch_step_facts (e : Z) (st : state) (xy : list Row * list Target) :
  Train.vars (batch_step e st xy) = minimize (Train.vars st) xy /\
  Train.iteration (batch_step e st xy) = Train.iteration st + 1 /\
  Train.validated_at (Train.out (batch_step e st xy))
  = Train.validated_at (Train.out st) ++ Train.every_fifth (Train.iteration st) 1.
Proof.
  unfold batch_step, Train.batch_step.
  destruct (validation_check_frame e
              (Train.gradient_step minimize eval_cost e st xy)) as (Hv & Hi & Ho).
  fold validation_check. rewrite Hv, Hi, Ho. simpl.
  rewrite sess_run_optimizer. split; [done|]. split; [done|].
  unfold Train.validated_at. rewrite !omap_app. simpl. rewrite app_nil_r.
  f_equal. rewrite every_fifth_succ. unfold Train.every_fifth. simpl.
  rewrite app_nil_r. by destruct (decide ((Train.iteration st + 1) mod 5 = 0)).
Qed.

Lemma batch_steps_facts (e : Z) (batches : list (list Row * list Target)) :
  forall st : state,
    Train.vars (foldl (batch_step e) st batches)
    = foldl minimize (Train.vars st) batches /\
    Train.iteration (foldl (batch_step e) st batches)
    = Train.iteration st + Py.len batches /\
    Train.validated_at (Train.out (foldl (batch_step e) st batches))
    = Train.validated_at (Train.out st)
      ++ Train.every_fifth (Train.iteration st) (length batches).
Proof.
  induction batches as [|xy batches IH]; intros st; simpl.
  - unfold Py.len. simpl. rewrite Z.add_0_r.
    unfold Train.every_fifth. simpl. by rewrite app_nil_r.
  - destruct (IH (batch_step e st xy)) as (Hv & Hi & Ho).
    destruct (batch_step_facts e st xy) as (Hv1 & Hi1 & Ho1).
    rewrite Hv, Hi, Ho, Hv1, Hi1, Ho1. split; [done|].
    split; [unfold Py.len; simpl; lia|].
    rewrite <- app_assoc. f_equal.
    by rewrite <- every_fifth_app.
Qed.

Lemma for_batches_yielded (g : gen (list Row * list Target))
    (body : state -> list Row * list Target -> state) :
  raised g = None ->
  forall st, Train.for_batches g body st = Ok (foldl body st (yielded g)).
Proof.
  induction g as [|xy rest IH|e]; intros Hr st; simpl in *; [done|auto|done].
Qed.

Section Epochs.
Variables (train_x : list Row) (train_y : list Target).
Hypothesis Hlen : 10 <= Py.len train_x.

Let batches : list (list Row * list Target) :=
  yielded (Batches.get_batches train_x train_y Batches.default_n_batches).
Let epoch :=
  Train.epoch minimize eval_cost eval_accuracy val_x val_y train_x train_y.

Lemma epoch_batches (st : state) (e : Z) :
  epoch st e = Ok (foldl (batch_step e) st batches) /\ length batches = 10%nat.
Proof.
  destruct (get_batches_default_count train_x train_y) as [Hr Hn];
    [done|].
  split.
  - unfold epoch, Train.epoch. by rewrite for_batches_yielded.
  - subst batches. unfold Py.len in Hn. lia.
Qed.

Lemma epochs_loop (es : list Z) :
  forall st : state,
    exists st',
      for_each es epoch st = Ok st' /\
      Train.vars st'
      = foldl minimize (Train.vars st) (concat (replicate (length es) batches)) /\
      Train.iteration st' = Train.iteration st + 10 * Py.len es /\
      Train.validated_at (Train.out st')
      = Train.validated_at (Train.out st)
        ++ Train.every_fifth (Train.iteration st) (10 * length es).
Proof.
  induction es as [|e es IH]; intros st.
  - exists st. simpl. unfold Train.every_fifth, Py.len. simpl.
    rewrite app_nil_r, Z.add_0_r. done.
  - destruct (epoch_batches st e) as [Hrun Hten].
    destruct (batch_steps_facts e batches st) as (Hv & Hi & Ho).
    destruct (IH (foldl (batch_step e) st batches)) as (st' & Hrun' & Hv' & Hi' & Ho').
    exists st'. rewrite for_each_cons, Hrun, bind_Ok.
    split; [done|]. rewrite Hv', Hi', Ho', Hv, Hi, Ho.
    split; [|split].
    + simpl. by rewrite foldl_app.
    + unfold Py.len. simpl. lia.
    + rewrite <- app_assoc. f_equal.
      replace (10 * length (e :: es))%nat with (length batches + 10 * length es)%nat
        by (simpl; lia).
      by rewrite every_fifth_app.
Qed.

End Epochs.

(** C9. Validation cadence and frame: fetching [accuracy] changes no
    variable, so the [if iteration % 5 == 0:] block leaves variables and
    iteration counter as they were and only prints the accuracy on the whole
    validation partition, and it does so exactly when the counter is a
    multiple of five. Over a whole training run on at least ten samples the
    validation checks therefore fall on the gradient steps 5, 10, 15, ...,
    and the final variables are those the gradient steps alone produce. *)
Theorem validation_every_five_steps_reads_only
    (train_x : list Row) (train_y : list Target) (epochs : Z) (vars0 : Params) :
  10 <= Py.len train_x ->
  (forall feed vars,
      Train.sess_run minimize [Train.accuracy] feed vars = vars) /\
  (forall (e : Z) (st : state),
      Train.vars (validation_check e st) = Train.vars st /\
      Train.iteration (validation_check e st) = Train.iteration st /\
      Train.out (validation_check e st)
      = Train.out st
        ++ (if decide (Train.iteration st mod 5 = 0)
            then [Train.ValidationAcc e (Train.iteration st)
                    (eval_accuracy (Train.vars st) (val_x, val_y))]
            else [])) /\
  exists st,
    Train.train minimize eval_cost eval_accuracy val_x val_y
                train_x train_y epochs vars0 = Ok st /\
    Train.iteration st = 10 * Z.of_nat (Z.to_nat epochs) /\
    Train.validated_at (Train.out st)
    = Train.every_fifth 0 (10 * Z.to_nat epochs) /\
    Train.vars st
    = foldl minimize vars0
        (concat (replicate (Z.to_nat epochs)
           (yielded (Batches.get_batches train_x train_y
                       Batches.default_n_batches)))).
Proof.
  intros Hlen. split; [apply sess_run_accuracy|].
  split; [apply validation_check_frame|].
  unfold Train.train, Py.range. change (1 =? 0) with false. cbv iota.
  rewrite bind_Ok. set (es := map _ _).
  assert (Hes : length es = Z.to_nat epochs).
  { subst es. rewrite length_map, length_seq. unfold Py.range_len. simpl.
    f_equal. rewrite Z.div_1_r. lia. }
  destruct (epochs_loop train_x train_y Hlen es
              {| Train.vars := vars0; Train.iteration := 0; Train.out := [] |})
    as (st & Hrun & Hv & Hi & Ho).
  exists st. split; [exact Hrun|]. simpl in *.
  unfold Py.len in Hi. rewrite Hes in *. done.
Qed.

End TrainFacts.

Lemma validation_every_five_steps_reads_only_witness :
  let minimize (p : list nat) (xy : list nat * list nat) := p ++ xy.1 in
  let measure (p : list nat) (xy : list nat * list nat) := length p in
  10 <= Py.len (seq 0 12) /\
  exists st,
    Train.train minimize measure measure [100%nat] [1%nat]
                (seq 0 12) (seq 0 12) 2 [] = Ok st /\
    Train.iteration st = 20 /\
    Train.validated_at (Train.out st) = [5; 10; 15; 20].
Proof.
  intros minimize measure.
  assert (Hlen : 10 <= Py.len (seq 0 12)) by (vm_compute; discriminate).
  split; [exact Hlen|].
  destruct (validation_every_five_steps_reads_only minimize measure measure
              [100%nat] [1%nat] (seq 0 12) (seq 0 12) 2 [] Hlen)
    as (_ & _ & st & Hrun & Hi & Ho & _).
  exists st. split; [exact Hrun|]. split; [exact Hi|exact Ho].
Defined.

(** ** The label encoding *)

Lemma elem_of_insert (s x : string) (l : list string) :
  x ∈ LabelBinarizer.insert s l <-> x = s \/ x ∈ l.
Proof.
  induction l as [|h t IH]; simpl; [by rewrite !elem_of_cons|].
  destruct (String_as_OT.compare_spec s h) as [->|Hlt|Hgt];
    rewrite ?elem_of_cons, ?IH; tauto.
Qed.

Lemma insert_sorted (s : string) (l : list string) :
  LabelBinarizer.strictly_sorted l -> LabelBinarizer.strictly_sorted (LabelBinarizer.insert s l).
Proof.
  unfold LabelBinarizer.strictly_sorted. induction 1 as [|h t Hs IH Hh]; simpl.
  - repeat constructor.
  - destruct (String_as_OT.compare_spec s h) as [->|Hlt|Hgt].
    + by constructor.
    + constructor; [by constructor|].
      constructor; [done|].
      eapply Forall_impl; [exact Hh|]. intros x Hx. by etransitivity.
    + constructor; [done|].
      apply Forall_forall. intros x [->|Hx]%elem_of_insert; [done|].
      by eapply Forall_forall in Hh.
Qed.

Lemma unique_sorted (y : list string) : LabelBinarizer.strictly_sorted (LabelBinarizer.unique y).
Proof.
  induction y as [|s y IH]; simpl; [constructor|by apply insert_sorted].
Qed.

Lemma elem_of_unique (x : string) (y : list string) :
  x ∈ LabelBinarizer.unique y <-> x ∈ y.
Proof.
  induction y as [|s y IH]; simpl; [done|].
  by rewrite elem_of_insert, IH, elem_of_cons.
Qed.

Lemma strictly_sorted_NoDup (l : list string) : LabelBinarizer.strictly_sorted l -> NoDup l.
Proof.
  induction 1 as [|h t Hs IH Hh]; constructor; [|done].
  intros Hin. eapply Forall_forall in Hh; [|exact Hin].
  by apply (irreflexivity String_as_OT.lt h).
Qed.

Lemma unique_NoDup (y : list string) : NoDup (LabelBinarizer.unique y).
Proof. apply strictly_sorted_NoDup, unique_sorted. Qed.

(** The number of classes is the number of distinct labels. *)
Lemma unique_size (y : list string) :
  length (LabelBinarizer.unique y) = size (list_to_set y : gset string).
Proof.
  rewrite <- (size_list_to_set (C := gset string)) by apply unique_NoDup.
  f_equal. apply set_eq. intros x.
  by rewrite !elem_of_list_to_set, elem_of_unique.
Qed.

Lemma indicator_one_hot (classes : list string) (label : string) (k : nat) :
  NoDup classes ->
  classes !! k = Some label ->
  LabelBinarizer.one_hot (LabelBinarizer.indicator classes label) k.
Proof.
  intros Hnd Hk j Hj. unfold LabelBinarizer.indicator in *.
  rewrite length_map in Hj.
  destruct (lookup_lt_is_Some_2 classes j Hj) as [c Hc].
  rewrite list_lookup_fmap, Hc. simpl. f_equal.
  destruct (String.eqb_spec c label) as [->|Hne].
  - by rewrite (bool_decide_eq_true_2 _ (NoDup_lookup _ _ _ _ Hnd Hc Hk)).
  - rewrite bool_decide_eq_false_2; [done|]. intros ->. congruence.
Qed.

(** The encoding by the number of classes: the encoder is fit once on the
    whole label sequence and then applied to it, giving one row per label;
    its classes are the distinct labels in strictly increasing order. With
    three or more classes row [i] is one-hot, as wide as there are classes,
    with its one at the position of the class of label [i] in that order.
    With exactly two classes a row is a single entry, one for the second,
    greater class and zero for the other; with a single class it is a single
    zero. *)
Theorem label_encoding (labels : list string) :
  labels <> [] ->
  let classes := LabelBinarizer.unique labels in
  exists vecs,
    LabelBinarizer.encode labels = Ok vecs /\
    length vecs = length labels /\
    length classes = size (list_to_set labels : gset string) /\
    LabelBinarizer.strictly_sorted classes /\
    (forall x : string, x ∈ classes <-> x ∈ labels) /\
    forall (i : nat) (label : string),
      labels !! i = Some label ->
      exists row,
        vecs !! i = Some row /\
        match classes with
        | [_] => row = [0]
        | [_; c1] => row = [if String.eqb c1 label then 1 else 0]
        | _ =>
            length row = length classes /\
            exists k, classes !! k = Some label /\ LabelBinarizer.one_hot row k
        end.
Proof.
  intros Hne classes.
  exists (LabelBinarizer.transform classes labels).
  split; [by destruct labels|].
  pose proof (unique_NoDup labels) as Hnd. fold classes in Hnd.
  assert (Hin : forall i label, labels !! i = Some label ->
                                exists k, classes !! k = Some label).
  { intros i label Hi. apply list_elem_of_lookup, elem_of_unique.
    by eapply list_elem_of_lookup_2. }
  unfold LabelBinarizer.transform. fold classes.
  split; [|split; [apply unique_size|]].
  - repeat case_match; by rewrite ?length_map.
  - split; [apply unique_sorted|]. split; [intros x; apply elem_of_unique|].
    intros i label Hi. destruct (Hin i label Hi) as [k Hk].
    destruct classes as [|c0 [|c1 [|c2 rest]]] eqn:Hcl; simpl.
    + done.
    + exists [0]. by rewrite list_lookup_fmap, Hi.
    + exists [if String.eqb c1 label then 1 else 0].
      by rewrite !list_lookup_fmap, Hi.
    + exists (LabelBinarizer.indicator (c0 :: c1 :: c2 :: rest) label).
      rewrite list_lookup_fmap, Hi. split; [done|].
      split; [unfold LabelBinarizer.indicator; by rewrite length_map|].
      exists k. split; [done|]. by apply indicator_one_hot.
Qed.

Lemma label_encoding_witness :
  ["daisy"; "tulips"; "roses"; "daisy"]%string <> [] /\
  exists vecs,
    LabelBinarizer.encode ["daisy"; "tulips"; "roses"; "daisy"]%string = Ok vecs /\
    length vecs = 4%nat.
Proof.
  split; [discriminate|].
  destruct (label_encoding ["daisy"; "tulips"; "roses"; "daisy"]%string)
    as (vecs & Henc & Hlen & _); [discriminate|].
  exists vecs. split; [exact Henc|exact Hlen].
Defined.

(** C7 at two classes: the labels of two class directories are encoded as
    rows of a single entry, zero or one, not as one-hot rows as wide as
    there are classes. *)
Lemma label_encoding_two_classes :
  LabelBinarizer.encode ["no"; "yes"; "no"]%string = Ok [[0]; [1]; [0]] /\
  length (LabelBinarizer.unique ["no"; "yes"; "no"]%string) = 2%nat /\
  ~ (forall vecs, LabelBinarizer.encode ["no"; "yes"; "no"]%string = Ok vecs ->
       Forall (fun row : list Z => length row = 2%nat) vecs).
Proof.
  split; [reflexivity|]. split; [reflexivity|].
  intros H. specialize (H _ eq_refl). by inversion H.
Qed.

(** ** The cache files *)

Lemma reshape_spec (flat : list Z) (n : Z) :
  Np.reshape flat n
  = if (n <=? 0) || negb (Py.len flat mod n =? 0) then Raise ValueError
    else Ok {| Np.shape := (n, Py.len flat / n); Np.data := flat |}.
Proof. reflexivity. Qed.

(** What the reload does with any two files: once the labels file has been
    read, the codes are reshaped to [len(labels)] rows or not at all. An
    array of labels without a length makes the reload raise. With a length
    [n]: when the number of floats in the codes file is not a multiple of
    [n], or [n] is zero, the reload raises [ValueError]; whenever it returns,
    the feature array has exactly [n] rows, the rows together hold every
    float of the file, and the labels are the ones read; and it does return
    when [n] is positive and divides the number of floats. *)
Theorem reload_checks_row_count (f : Cache.files) (labels : Np.str_array) :
  Cache.read_labels f = Ok labels ->
  let floats := Py.len (Np.fromfile (Cache.codes_file f)) in
  match Np.len labels with
  | Raise e => Cache.read_cache f = Raise e
  | Ok n =>
      (n = 0 \/ floats mod n <> 0 -> Cache.read_cache f = Raise ValueError) /\
      (forall codes labels',
          Cache.read_cache f = Ok (codes, labels') ->
          labels' = labels /\
          (Np.shape codes).1 = n /\
          n * (Np.shape codes).2 = floats /\
          Np.data codes = Np.fromfile (Cache.codes_file f)) /\
      (n <> 0 -> floats mod n = 0 -> is_ok (Cache.read_cache f) = true)
  end.
Proof.
  intros Hlabels floats.
  unfold Cache.read_cache. rewrite Hlabels, bind_Ok.
  destruct (Np.len labels) as [n|e] eqn:Hn; [|done].
  assert (H0 : 0 <= n).
  { destruct labels; simpl in Hn; try discriminate;
      injection Hn as <-; unfold Py.len; lia. }
  rewrite bind_Ok, reshape_spec. fold floats.
  destruct (Z.leb_spec n 0) as [Hle|Hpos]; simpl.
  - split; [done|]. split; [discriminate|lia].
  - destruct (Z.eqb_spec (floats mod n) 0) as [Hz|Hnz]; simpl.
    + split; [intros [?|?]; lia|]. split; [|done].
      intros codes labels' [= <- <-]. simpl.
      split; [done|]. split; [done|]. split; [|done].
      rewrite (Z.div_mod floats n) at 2 by lia. lia.
    + split; [done|]. split; [discriminate|done].
Qed.

Lemma reload_checks_row_count_witness :
  let f := {| Cache.codes_file := [0; 0; 128; 63; 0; 0; 128; 63; 0; 0; 128; 63];
              Cache.labels_file := "daisy" +:+ String Text.LF ("roses" +:+ String Text.LF "") |} in
  Cache.read_labels f = Ok (Np.Vector ["daisy"; "roses"]%string) /\
  Cache.read_cache f = Raise ValueError.
Proof.
  intros f.
  assert (Hl : Cache.read_labels f = Ok (Np.Vector ["daisy"; "roses"]%string))
    by reflexivity.
  split; [exact Hl|].
  apply (reload_checks_row_count f _ Hl). right. vm_compute. discriminate.
Defined.

(** C1 at a single sample: the array of one label squeezes to an array
    without axes, [len(labels)] raises [TypeError], and the cache just
    written cannot be read back. *)
Theorem cache_roundtrip_single_sample :
  Cache.read_cache
    (Cache.write_cache
       {| Np.shape := (1, 2); Np.data := [1065353216; 3212836864] |}
       ["daisy"%string])
  = Raise TypeError.
Proof. reflexivity. Qed.

(** *** The raw dump of the codes *)

Lemma testbit_255 (i : Z) : Z.testbit 255 i = (0 <=? i) && (i <? 8).
Proof. change 255 with (Z.ones 8). by apply Z.testbit_ones. Qed.

Lemma float32_high_bits (w i : Z) :
  Np.is_float32 w -> 32 <= i -> Z.testbit w i = false.
Proof.
  intros Hw Hi. rewrite <- (Z.mod_small w (2 ^ 32)) by exact Hw.
  apply Z.mod_pow2_bits_high. lia.
Qed.

Ltac decide_comparisons :=
  repeat match goal with
         | |- context [?a <=? ?b] => destruct (Z.leb_spec a b); try lia
         | |- context [?a <? ?b] => destruct (Z.ltb_spec a b); try lia
         end.

(** Bit [i] of byte [k] of an item, seen at position [i - 8 * k]. *)
Lemma testbit_byte_of (w k i : Z) :
  0 <= k ->
  Z.testbit (Np.byte_of w k) (i - 8 * k)
  = Z.testbit w i && (8 * k <=? i) && (i <? 8 * k + 8).
Proof.
  intros Hk. unfold Np.byte_of. rewrite Z.land_spec, testbit_255.
  destruct (Z.le_gt_cases (8 * k) i).
  - rewrite Z.shiftr_spec by lia. replace (i - 8 * k + 8 * k) with i by lia.
    decide_comparisons; by rewrite ?andb_true_r, ?andb_false_r.
  - rewrite Z.testbit_neg_r by lia.
    decide_comparisons; by rewrite ?andb_false_r.
Qed.

(** The four bytes of an item put together give the item back. *)
Lemma item_of_item_bytes (w : Z) :
  Np.is_float32 w ->
  Np.item_of_bytes (Np.byte_of w 0) (Np.byte_of w 1) (Np.byte_of w 2)
                   (Np.byte_of w 3) = w.
Proof.
  intros Hw. apply Z.bits_inj'. intros i Hi.
  unfold Np.item_of_bytes.
  rewrite !Z.lor_spec, !Z.shiftl_spec by lia.
  replace i with (i - 8 * 0) at 1 by lia.
  change 8 with (8 * 1) at 2. change 16 with (8 * 2). change 24 with (8 * 3).
  rewrite !testbit_byte_of by lia.
  destruct (Z.lt_ge_cases i 32).
  - decide_comparisons; destruct (Z.testbit w i); reflexivity.
  - rewrite (float32_high_bits w i) by (done || lia). reflexivity.
Qed.

Lemma fromfile_tofile (items : list Z) :
  Forall Np.is_float32 items ->
  Np.fromfile (flat_map Np.item_bytes items) = items.
Proof.
  induction 1 as [|w items Hw _ IH]; [done|].
  cbn [flat_map Np.item_bytes app Np.fromfile].
  by rewrite item_of_item_bytes, IH.
Qed.

(** *** The labels file *)

Lemma string_app_cons (c : ascii) (s t : string) :
  String c s +:+ t = String c (s +:+ t).
Proof. reflexivity. Qed.

Lemma string_app_nil_l (t : string) : "" +:+ t = t.
Proof. reflexivity. Qed.

Lemma string_app_assoc (s t u : string) : (s +:+ t) +:+ u = s +:+ (t +:+ u).
Proof.
  induction s as [|c s IH]; [done|]. by rewrite !string_app_cons, IH.
Qed.

Lemma string_app_nil_r (s : string) : s +:+ "" = s.
Proof.
  induction s as [|c s IH]; [done|]. by rewrite string_app_cons, IH.
Qed.

Lemma special_false (c : ascii) :
  Csv.special c = false ->
  Ascii.eqb c Text.LF = false /\ Ascii.eqb c Text.DQUOTE = false /\
  Ascii.eqb c Text.CR = false.
Proof.
  unfold Csv.special, Csv.delimiter, Csv.quotechar, Csv.lineterminator.
  cbn [Csv.mem].
  destruct (Ascii.eqb c Text.LF), (Ascii.eqb c Text.DQUOTE),
    (Ascii.eqb c Text.CR); simpl; intros; done.
Qed.

Lemma has_special_cons (c : ascii) (s : string) :
  Csv.has_special (String c s) = false ->
  Csv.special c = false /\ Csv.has_special s = false.
Proof. simpl. by intros [? ?]%orb_false_elim. Qed.

Lemma join_append_plain (s : string) :
  Csv.has_special s = false -> Csv.join_append s false = s.
Proof. intros H. unfold Csv.join_append. by rewrite H. Qed.

Lemma read_plain (s t : string) :
  Csv.has_special s = false -> Text.read (s +:+ t) = s +:+ Text.read t.
Proof.
  induction s as [|c s IH]; intros Hs; [done|].
  apply has_special_cons in Hs as [(_ & _ & Hcr)%special_false Hs].
  rewrite !string_app_cons. cbn [Text.read]. by rewrite Hcr, IH.
Qed.

Lemma lines_from_plain (s cur t : string) :
  Csv.has_special s = false ->
  Text.lines_from cur (s +:+ String Text.LF t)
  = (cur +:+ s +:+ String Text.LF "") :: Text.lines_from "" t.
Proof.
  revert cur. induction s as [|c s IH]; intros cur Hs.
  - rewrite !string_app_nil_l. cbn [Text.lines_from]. by rewrite Ascii.eqb_refl.
  - apply has_special_cons in Hs as [(Hlf & _ & _)%special_false Hs].
    rewrite !string_app_cons. cbn [Text.lines_from]. rewrite Hlf, IH by done.
    f_equal. by rewrite string_app_assoc.
Qed.

(** The text of the labels file, read back line by line. *)
Lemma lines_read_writerow (labels : list string) :
  labels <> [] ->
  Forall Csv.plain labels ->
  Text.lines (Text.read (Text.write (Csv.writerow labels)))
  = map (fun l => l +:+ String Text.LF "") labels.
Proof.
  intros Hne Hplain. unfold Text.write, Csv.writerow.
  assert (Hjoin : exists c r, Csv.join labels = String c r).
  { destruct Hplain as [|l rest [Hl Hs] _]; [done|].
    destruct l as [|c l]; [done|]. cbn [Csv.join].
    rewrite (join_append_plain (String c l)) by done.
    destruct rest; rewrite ?string_app_cons; eauto. }
  destruct Hjoin as (c & r & Hjoin).
  replace (match labels with
           | [] => Csv.join labels
           | _ :: _ =>
               match Csv.join labels with
               | "" => Csv.join_append "" true
               | String _ _ => Csv.join labels
               end
           end) with (Csv.join labels) by (rewrite Hjoin; by destruct labels).
  clear c r Hjoin. unfold Text.lines.
  induction Hplain as [|l rest [Hl Hs] Hrest IH]; [done|].
  destruct rest as [|l' rest].
  - cbn [Csv.join map]. rewrite join_append_plain, read_plain by done.
    change (Text.read Csv.lineterminator) with (String Text.LF "").
    by rewrite lines_from_plain.
  - cbn [Csv.join map]. rewrite join_append_plain by done.
    rewrite string_app_assoc, string_app_cons.
    rewrite read_plain by done.
    change (Text.read (String Csv.delimiter ?t)) with (String Text.LF (Text.read t)).
    rewrite lines_from_plain by done. f_equal. by apply IH.
Qed.

Lemma plain_char (c : ascii) :
  Csv.special c = false ->
  Csv.is_newline c = false /\ Ascii.eqb c Csv.quotechar = false /\
  Ascii.eqb c Csv.delimiter = false.
Proof.
  intros (Hlf & Hdq & Hcr)%special_false.
  unfold Csv.is_newline, Csv.quotechar, Csv.delimiter. by rewrite Hlf, Hdq, Hcr.
Qed.

Lemma process_char_start (c : ascii) :
  Csv.special c = false ->
  Csv.parse_process_char Csv.parse_reset (Some c)
  = Ok {| Csv.state := Csv.IN_FIELD; Csv.field := String c ""; Csv.fields := [] |}.
Proof.
  intros (Hnl & Hq & Hd)%plain_char.
  unfold Csv.parse_process_char, Csv.parse_reset. cbn [Csv.state].
  by rewrite Hnl, Hq, Hd.
Qed.

Lemma process_char_in_field (c : ascii) (fld : string) (fs : list string) :
  Csv.special c = false ->
  Csv.parse_process_char
    {| Csv.state := Csv.IN_FIELD; Csv.field := fld; Csv.fields := fs |} (Some c)
  = Ok {| Csv.state := Csv.IN_FIELD; Csv.field := fld +:+ String c "";
          Csv.fields := fs |}.
Proof.
  intros (Hnl & _ & Hd)%plain_char.
  unfold Csv.parse_process_char. cbn [Csv.state]. by rewrite Hnl, Hd.
Qed.

(** Inside an unquoted field the reader collects plain characters up to the
    line feed. *)
Lemma parse_chars_in_field (s fld : string) (fs : list string) :
  Csv.has_special s = false ->
  Csv.parse_chars {| Csv.state := Csv.IN_FIELD; Csv.field := fld; Csv.fields := fs |}
                  (s +:+ String Text.LF "")
  = Ok {| Csv.state := Csv.EAT_CRNL; Csv.field := ""; Csv.fields := fs ++ [fld +:+ s] |}.
Proof.
  revert fld. induction s as [|c s IH]; intros fld Hs.
  - by rewrite string_app_nil_l, string_app_nil_r.
  - apply has_special_cons in Hs as [Hc Hs].
    rewrite string_app_cons. cbn [Csv.parse_chars].
    rewrite process_char_in_field, bind_Ok, IH by done.
    by rewrite string_app_assoc.
Qed.

Lemma parse_line_plain (l : string) :
  Csv.plain l ->
  Csv.parse_line Csv.parse_reset (l +:+ String Text.LF "")
  = Ok {| Csv.state := Csv.START_RECORD; Csv.field := ""; Csv.fields := [l] |}.
Proof.
  intros [Hne Hs]. destruct l as [|c l]; [done|].
  apply has_special_cons in Hs as [Hc Hs].
  unfold Csv.parse_line. rewrite string_app_cons. cbn [Csv.parse_chars].
  rewrite process_char_start, bind_Ok by done.
  by rewrite parse_chars_in_field, bind_Ok by done.
Qed.

Lemma reader_rows_plain (labels : list string) :
  Forall Csv.plain labels ->
  Csv.reader_rows (map (fun l => l +:+ String Text.LF "") labels)
  = Ok (map (fun l => [l]) labels).
Proof.
  unfold Csv.reader_rows. induction 1 as [|l labels Hl _ IH]; [done|].
  cbn [map Csv.rows_from]. rewrite parse_line_plain, bind_Ok by done.
  cbn [Csv.state Csv.fields]. by rewrite IH, bind_Ok.
Qed.

(** The labels come back, in order, as one array axis, when there are at
    least two of them and none needs quoting. *)
Lemma read_labels_write_cache (codes : Np.ndarray) (labels : list string) :
  2 <= Py.len labels ->
  Forall Csv.plain labels ->
  Cache.read_labels (Cache.write_cache codes labels) = Ok (Np.Vector labels).
Proof.
  intros Hlen Hplain. unfold Cache.read_labels, Cache.write_cache.
  cbn [Cache.labels_file].
  rewrite lines_read_writerow by (done || by destruct labels).
  rewrite reader_rows_plain, bind_Ok by done. f_equal.
  assert (Hfilter : filter (fun each : list string => 0 < Py.len each)
                      (map (fun l => [l]) labels) = map (fun l => [l]) labels).
  { clear. induction labels as [|l labels IH]; [done|].
    cbn [map]. rewrite filter_cons_True by (unfold Py.len; simpl; lia).
    by rewrite IH. }
  rewrite Hfilter.
  assert (Hall : forall ls : list string,
             forallb (fun r : list string => bool_decide (length r = 1%nat))
                     (map (fun l => [l]) ls) = true)
    by (induction ls; simpl; auto).
  destruct labels as [|l1 [|l2 labels]]; [unfold Py.len in Hlen; simpl in Hlen; lia..|].
  unfold Np.array. cbn [map].
  change (forallb (fun r' : list string => bool_decide (length r' = length [l1]))
                  ([l2] :: map (fun l => [l]) labels))
    with (forallb (fun r : list string => bool_decide (length r = 1%nat))
                  (map (fun l => [l]) (l2 :: labels))).
  rewrite Hall. unfold Np.squeeze.
  change ([l1] :: [l2] :: map (fun l => [l]) labels)
    with (map (fun l => [l]) (l1 :: l2 :: labels)) at 1.
  rewrite Hall. cbn [map concat app]. do 3 f_equal.
  clear. induction labels as [|l labels IH]; [done|]. cbn [map concat app].
  by rewrite IH.
Qed.

Lemma reshape_rows (flat : list Z) (n d : Z) :
  0 < n -> Py.len flat = n * d ->
  Np.reshape flat n = Ok {| Np.shape := (n, d); Np.data := flat |}.
Proof.
  intros Hn Hlen. rewrite reshape_spec, Hlen.
  destruct (Z.leb_spec n 0); [lia|].
  rewrite Z.mul_comm, Z_mod_mult, Z.eqb_refl, Z.div_mul by lia. done.
Qed.

(** The round trip of the cache for two or more samples whose labels the
    writer leaves unquoted: both files read back give the array, item for
    item, and the labels in order. *)
Theorem cache_roundtrip (codes : Np.ndarray) (labels : list string) :
  Np.well_formed codes ->
  (Np.shape codes).1 = Py.len labels ->
  2 <= Py.len labels ->
  Forall Csv.plain labels ->
  Cache.read_cache (Cache.write_cache codes labels)
  = Ok (codes, Np.Vector labels).
Proof.
  intros (_ & _ & Hsize & Hitems) Hrows Hlen Hplain.
  unfold Cache.read_cache. rewrite read_labels_write_cache, bind_Ok by done.
  cbn [Np.len Cache.write_cache Cache.codes_file]. rewrite bind_Ok.
  unfold Np.tofile. rewrite fromfile_tofile by done.
  rewrite (reshape_rows _ _ (Np.shape codes).2) by (rewrite <- ?Hrows; done || lia).
  rewrite bind_Ok. do 2 f_equal. destruct codes as [[n d] items]. simpl in *.
  by rewrite Hrows.
Qed.

Lemma cache_roundtrip_witness :
  let codes := {| Np.shape := (2, 2);
                  Np.data := [1065353216; 3212836864; 0; 4294967295] |} in
  let labels := ["daisy"; "roses"]%string in
  Np.well_formed codes /\
  (Np.shape codes).1 = Py.len labels /\
  2 <= Py.len labels /\
  Forall Csv.plain labels /\
  Cache.read_cache (Cache.write_cache codes labels) = Ok (codes, Np.Vector labels).
Proof.
  intros codes labels.
  assert (Hwf : Np.well_formed codes).
  { unfold Np.well_formed, Np.is_float32. simpl.
    repeat split; try lia; repeat constructor; lia. }
  assert (Hrows : (Np.shape codes).1 = Py.len labels) by reflexivity.
  assert (Hlen : 2 <= Py.len labels) by (vm_compute; discriminate).
  assert (Hplain : Forall Csv.plain labels)
    by (repeat constructor; discriminate).
  split; [exact Hwf|]. split; [exact Hrows|]. split; [exact Hlen|].
  split; [exact Hplain|].
  exact (cache_roundtrip codes labels Hwf Hrows Hlen Hplain).
Defined.

(** * Further properties *)

(** ** get_batches: pairing and degenerate batch counts *)

(** With as many targets as features, every batch pairs each feature row
    with its own target: the batches have as many targets as features and,
    zipped and put end to end, give the zipped training set. *)
Theorem get_batches_pairs_aligned {X Y : Type}
    (x : list X) (y : list Y) (n_batches : Z) :
  1 <= n_batches ->
  n_batches <= Py.len x ->
  length x = length y ->
  let g := Batches.get_batches x y n_batches in
  Forall (fun b : list X * list Y => length b.1 = length b.2) (yielded g) /\
  concat (map (fun b : list X * list Y => zip b.1 b.2) (yielded g)) = zip x y.
Proof.
  intros Hn Hlen Hxy g. subst g.
  destruct (get_batches_yielded x y n_batches Hn Hlen) as [_ ->].
  set (size := Z.to_nat (Py.len x / n_batches)).
  set (m := Z.to_nat (n_batches - 1)).
  split.
  - apply Forall_app. split.
    + apply Forall_forall. intros b (k & -> & _)%list_elem_of_fmap. simpl.
      rewrite !length_take, !length_drop. lia.
    + constructor; [|constructor]. simpl. rewrite !length_drop. lia.
  - rewrite map_app, map_map, concat_app. simpl. rewrite app_nil_r.
    etrans; [|exact (concat_chunks (zip x y) size 0 m)]. f_equal.
    + f_equal. apply map_ext. intros k. simpl.
      by rewrite <- zip_with_take, <- zip_with_drop.
    + simpl. by rewrite <- zip_with_drop.
Qed.

Lemma get_batches_pairs_aligned_witness :
  1 <= 3 /\ 3 <= Py.len [1; 2; 3; 4; 5; 6; 7] /\
  let g := Batches.get_batches [1; 2; 3; 4; 5; 6; 7] [10; 20; 30; 40; 50; 60; 70] 3 in
  Forall (fun b : list Z * list Z => length b.1 = length b.2) (yielded g) /\
  concat (map (fun b : list Z * list Z => zip b.1 b.2) (yielded g))
  = zip [1; 2; 3; 4; 5; 6; 7] [10; 20; 30; 40; 50; 60; 70].
Proof.
  split; [lia|]. split; [vm_compute; discriminate|].
  apply (get_batches_pairs_aligned
           [1; 2; 3; 4; 5; 6; 7] [10; 20; 30; 40; 50; 60; 70] 3);
    [lia | vm_compute; discriminate | reflexivity].
Defined.

(** A batch count that is not positive: zero divides by zero; a negative one
    yields no batch at all and ends quietly when there is data, and raises
    [ValueError] (a zero step) when there is none. *)
Theorem get_batches_nonpositive {X Y : Type}
    (x : list X) (y : list Y) (n_batches : Z) :
  n_batches <= 0 ->
  Batches.get_batches x y n_batches
  = if n_batches =? 0 then Throw ZeroDivisionError
    else match x with
         | [] => Throw ValueError
         | _ :: _ => Stop
         end.
Proof.
  intros Hn. unfold Batches.get_batches, Py.floordiv.
  destruct (Z.eqb_spec n_batches 0) as [|Hnz]; [done|].
  destruct x as [|a x]; [done|].
  set (len := Py.len (a :: x)).
  assert (Hlen : 0 < len) by (subst len; unfold Py.len; simpl; lia).
  pose proof (Z.div_mod len n_batches Hnz) as Hdm.
  pose proof (Z.mod_neg_bound len n_batches ltac:(lia)) as Hr.
  set (bs := len / n_batches) in *.
  assert (Hbs : bs < 0) by nia.
  unfold Py.range. destruct (Z.eqb_spec bs 0) as [|_]; [lia|].
  unfold Py.range_len. destruct (Z.ltb_spec 0 bs) as [|_]; [lia|].
  assert (Hq : (0 - n_batches * bs - bs - 1) / - bs < 0).
  { apply Z.div_lt_upper_bound; nia. }
  by replace (Z.to_nat ((0 - n_batches * bs - bs - 1) / - bs)) with 0%nat by lia.
Qed.

Lemma get_batches_nonpositive_witness :
  -3 <= 0 /\ Batches.get_batches [1; 2] [10; 20] (-3) = Stop.
Proof.
  split; [lia|]. apply (get_batches_nonpositive [1; 2] [10; 20] (-3)). lia.
Defined.

Lemma get_batches_zero_step {X Y : Type} (x : list X) (y : list Y) (n_batches : Z) :
  Py.len x < n_batches -> Batches.get_batches x y n_batches = Throw ValueError.
Proof.
  intros Hlt. assert (0 <= Py.len x) by (unfold Py.len; lia).
  unfold Batches.get_batches, Py.floordiv.
  destruct (Z.eqb_spec n_batches 0) as [|_]; [lia|].
  rewrite Z.div_small by lia. unfold Py.range. by rewrite Z.eqb_refl.
Qed.

(** ** The batching loop: calls to the network and failures *)

Lemma for_each_app {S A} (xs ys : list A) (body : S -> A -> result S) (st : S) :
  for_each (xs ++ ys) body st = for_each xs body st ≫= for_each ys body.
Proof.
  revert st. induction xs as [|a xs IH]; intros st; [done|].
  simpl. destruct (body st a) as [st'|e]; [|done]. by rewrite !bind_Ok, IH.
Qed.

Lemma enumerate_app {A} (xs ys : list A) (start : Z) :
  Py.enumerate (xs ++ ys) start
  = Py.enumerate xs start ++ Py.enumerate ys (start + Py.len xs).
Proof.
  revert start. induction xs as [|a xs IH]; intros start; simpl.
  - unfold Py.len. simpl. by rewrite Z.add_0_r.
  - rewrite IH. do 3 f_equal. unfold Py.len. simpl. lia.
Qed.

(** Full batches and one last batch: as many batches as the ceiling of the
    item count over the batch size. *)
Lemma batched_count {A} (batch_size : Z) (chunks : list (list A)) :
  1 <= batch_size ->
  Pipeline.batched batch_size chunks ->
  Py.len chunks = (Py.len (concat chunks) + batch_size - 1) / batch_size.
Proof.
  intros Hbs [->|(full & last & -> & Hfull & Hlast)].
  - unfold Py.len. simpl. symmetry. apply Z.div_small. lia.
  - assert (Hcat : Py.len (concat full) = batch_size * Py.len full).
    { clear Hlast. induction Hfull as [|c full Hc _ IH]; unfold Py.len in *; simpl.
      - lia.
      - rewrite length_app. lia. }
    unfold Py.len in *. rewrite concat_app, !length_app. simpl.
    rewrite app_nil_r.
    replace (Z.of_nat (length (concat full) + length last) + batch_size - 1)
      with (Z.of_nat (length last) - 1 + (Z.of_nat (length full) + 1) * batch_size)
      by lia.
    rewrite Z.div_add, Z.div_small by lia. lia.
Qed.

Section PipelineMore.
Context {Image Code : Type}.
Variables (load_image : string -> result Image) (relu6 : Image -> Code).
Variable batch_size : Z.

Let file_step := Pipeline.file_step load_image relu6 batch_size.
Let class_step := Pipeline.class_step load_image relu6 batch_size.

(** A file that does not load stops the iteration with its exception. *)
Lemma file_step_fails (each class_path file : string) (n ii : Z)
    (st : Pipeline.state) (e : exn) :
  load_image (Pipeline.path_join class_path file) = Raise e ->
  file_step each class_path n st (ii, file) = Raise e.
Proof. intros He. unfold file_step, Pipeline.file_step. by rewrite He. Qed.

(** Files that load are passed without an exception. *)
Lemma files_pass (each class_path : string) (n : Z) (files : list string) :
  1 <= batch_size ->
  forall (imgs : list Image) (ii : Z) (st : Pipeline.state),
    Pipeline.loaded load_image class_path files imgs ->
    exists st', for_each (Py.enumerate files ii) (file_step each class_path n) st
                = Ok st'.
Proof.
  intros Hbs. induction files as [|file files IH]; intros imgs ii st Hload.
  - by exists st.
  - apply Forall2_cons_inv_l in Hload as (img & imgs' & Himg & Hload & ->).
    cbn [Py.enumerate]. rewrite for_each_cons.
    unfold file_step at 1.
    rewrite (file_step_loaded load_image relu6 batch_size Hbs _ _ _ _ _ _ img Himg).
    cbv zeta. rewrite bind_Ok. by eapply IH.
Qed.

(** The first file that does not load aborts the whole run with the
    exception of the loader: every class before it and every file before it
    in its class was read, nothing after it is. *)
Theorem pipeline_load_failure_aborts (root : Pipeline.dataset)
    (cs1 cs2 : list (string * list string)) (each file : string)
    (f1 f2 : list string) (imgss : list (list Image)) (imgs : list Image)
    (e : exn) :
  1 <= batch_size ->
  Pipeline.classes root = cs1 ++ (each, f1 ++ file :: f2) :: cs2 ->
  Forall2 (fun c imgs =>
             Pipeline.loaded load_image (Pipeline.data_dir +:+ c.1) c.2 imgs)
          cs1 imgss ->
  Pipeline.loaded load_image (Pipeline.data_dir +:+ each) f1 imgs ->
  load_image (Pipeline.path_join (Pipeline.data_dir +:+ each) file) = Raise e ->
  Pipeline.run load_image relu6 batch_size root = Raise e.
Proof.
  intros Hbs Hcs Hload1 Hload He.
  unfold Pipeline.run. rewrite Hcs, for_each_app.
  destruct (classes_loop load_image relu6 batch_size Hbs cs1 imgss
              Pipeline.init eq_refl Hload1) as (st & _ & Hrun & _).
  fold class_step in Hrun. fold class_step. rewrite Hrun, bind_Ok.
  assert (Hclass : class_step st (each, f1 ++ file :: f2) = Raise e).
  { unfold class_step, Pipeline.class_step.
    rewrite enumerate_app, for_each_app.
    destruct (files_pass each (Pipeline.data_dir +:+ each)
                (Py.len (f1 ++ file :: f2)) f1 Hbs imgs 1 st Hload) as [st' Hst'].
    fold file_step. rewrite Hst', bind_Ok. cbn [Py.enumerate].
    by rewrite for_each_cons, (file_step_fails _ _ _ _ _ _ e He). }
  by rewrite for_each_cons, Hclass.
Qed.

(** The network is called once per batch and batches never run across
    classes: the number of calls is the sum, over the classes, of the file
    count divided by the batch size and rounded up. *)
Theorem pipeline_network_calls (root : Pipeline.dataset)
    (imgss : list (list Image)) :
  1 <= batch_size ->
  Forall2 (fun c imgs =>
             Pipeline.loaded load_image (Pipeline.data_dir +:+ c.1) c.2 imgs)
          (Pipeline.classes root) imgss ->
  exists st,
    Pipeline.run load_image relu6 batch_size root = Ok st /\
    Py.len (Pipeline.runs st)
    = foldr (fun (c : string * list string) calls =>
               (Py.len c.2 + batch_size - 1) / batch_size + calls)
            0 (Pipeline.classes root).
Proof.
  intros Hbs Hall.
  destruct (classes_loop load_image relu6 batch_size Hbs _ imgss
              Pipeline.init eq_refl Hall)
    as (st & chunkss & Hrun & _ & _ & _ & _ & Hruns & Hchunks).
  exists st. split; [exact Hrun|]. rewrite Hruns. simpl. clear Hrun Hruns.
  revert chunkss Hchunks.
  induction Hall as [|c imgs cs imgss' Hc _ IH]; intros chunkss Hchunks.
  - by apply Forall2_nil_inv_l in Hchunks as ->.
  - apply Forall2_cons_inv_l in Hchunks
      as (chunks & chunkss' & [Hcat Hbat] & Hchunks & ->).
    simpl. rewrite <- (IH chunkss' Hchunks).
    pose proof (batched_count batch_size chunks Hbs Hbat) as Hcount.
    pose proof (Forall2_length _ _ _ Hc) as Hlen.
    rewrite Hcat in Hcount. unfold Py.len in *.
    rewrite length_app, Hlen. lia.
Qed.

End PipelineMore.

(** A batch size of zero: the first image read makes [ii % batch_size]
    divide by zero, whatever comes after; classes without files before it
    are passed. *)
Theorem pipeline_zero_batch_size {Image Code : Type}
    (load_image : string -> result Image) (relu6 : Image -> Code)
    (root : Pipeline.dataset) (cs1 cs2 : list (string * list string))
    (each file : string) (files : list string) (img : Image) :
  Pipeline.classes root = cs1 ++ (each, file :: files) :: cs2 ->
  Forall (fun c : string * list string => c.2 = []) cs1 ->
  load_image (Pipeline.path_join (Pipeline.data_dir +:+ each) file) = Ok img ->
  Pipeline.run load_image relu6 0 root = Raise ZeroDivisionError.
Proof.
  intros Hcs Hempty Himg. unfold Pipeline.run. rewrite Hcs, for_each_app.
  assert (Hpass : forall st,
             for_each cs1 (Pipeline.class_step load_image relu6 0) st = Ok st).
  { clear Hcs. induction Hempty as [|[name fs] cs Hc _ IH]; intros st; [done|].
    simpl in Hc. subst fs. rewrite for_each_cons. simpl. rewrite ?bind_Ok.
    apply IH. }
  assert (Hclass : forall st,
             Pipeline.class_step load_image relu6 0 st (each, file :: files)
             = Raise ZeroDivisionError).
  { intros st. unfold Pipeline.class_step. cbn [Py.enumerate].
    assert (Hstep : Pipeline.file_step load_image relu6 0 each
                      (Pipeline.data_dir +:+ each) (Py.len (file :: files))
                      st (1, file) = Raise ZeroDivisionError)
      by (unfold Pipeline.file_step; by rewrite Himg).
    by rewrite for_each_cons, Hstep. }
  by rewrite Hpass, bind_Ok, for_each_cons, Hclass.
Qed.

Lemma pipeline_load_failure_aborts_witness :
  let load_image (path : string) : result string :=
    if String.eqb path "flower_photos/daisy/b" then Raise ValueError else Ok path in
  let root : Pipeline.dataset :=
    [("empty", Some []); ("daisy", Some ["a"; "b"; "c"])]%string in
  1 <= 2 /\
  Pipeline.classes root = [("empty", [])] ++ ("daisy", ["a"] ++ "b" :: ["c"]) :: [] /\
  Pipeline.run load_image String.length 2 root = Raise ValueError.
Proof.
  intros load_image root.
  assert (Hbs : 1 <= 2) by lia.
  assert (Hcs : Pipeline.classes root
                = [("empty", [])] ++ ("daisy", ["a"] ++ "b" :: ["c"]) :: [])
    by reflexivity.
  split; [exact Hbs|]. split; [exact Hcs|].
  apply (pipeline_load_failure_aborts load_image String.length 2 root
           [("empty", [])] [] "daisy" "b" ["a"] ["c"] [[]]
           ["flower_photos/daisy/a"] ValueError Hbs Hcs).
  - repeat constructor.
  - repeat constructor.
  - reflexivity.
Defined.

Lemma pipeline_network_calls_witness :
  let load_image (path : string) : result string := Ok path in
  let root : Pipeline.dataset :=
    [("daisy", Some ["a"; "b"; "c"]); ("LICENSE.txt", None);
     ("empty", Some []); ("roses", Some ["d"; "e"])]%string in
  1 <= 2 /\
  exists st,
    Pipeline.run load_image String.length 2 root = Ok st /\
    Py.len (Pipeline.runs st) = 3.
Proof.
  intros load_image root.
  assert (Hbs : 1 <= 2) by lia.
  split; [exact Hbs|].
  destruct (pipeline_network_calls load_image String.length 2 root
              [["flower_photos/daisy/a"; "flower_photos/daisy/b";
                "flower_photos/daisy/c"];
               []; ["flower_photos/roses/d"; "flower_photos/roses/e"]] Hbs)
    as (st & Hrun & Hcalls); [vm_compute; repeat constructor|].
  exists st. split; [exact Hrun|exact Hcalls].
Defined.

Lemma pipeline_zero_batch_size_witness :
  let load_image (path : string) : result string := Ok path in
  let root : Pipeline.dataset :=
    [("empty", Some []); ("daisy", Some ["a"; "b"; "c"])]%string in
  Pipeline.classes root = [("empty", [])] ++ ("daisy", "a" :: ["b"; "c"]) :: [] /\
  Pipeline.run load_image String.length 0 root = Raise ZeroDivisionError.
Proof.
  intros load_image root.
  assert (Hcs : Pipeline.classes root
                = [("empty", [])] ++ ("daisy", "a" :: ["b"; "c"]) :: [])
    by reflexivity.
  split; [exact Hcs|].
  apply (pipeline_zero_batch_size load_image String.length root
           [("empty", [])] [] "daisy" "a" ["b"; "c"] "flower_photos/daisy/a" Hcs).
  - repeat constructor.
  - reflexivity.
Defined.

(** ** Training on too few samples *)

Section TrainMore.
Context {Row Target Params Loss Acc : Type}.
Variable minimize : Params -> list Row * list Target -> Params.
Variable eval_cost : Params -> list Row * list Target -> Loss.
Variable eval_accuracy : Params -> list Row * list Target -> Acc.
Variables (val_x : list Row) (val_y : list Target).

(** With fewer than ten training samples the first epoch already fails: the
    default ten batches make the batch size zero and the run ends in
    [ValueError] before any gradient step. *)
Theorem train_too_few_samples
    (train_x : list Row) (train_y : list Target) (epochs : Z) (vars0 : Params) :
  Py.len train_x < 10 ->
  1 <= epochs ->
  Train.train minimize eval_cost eval_accuracy val_x val_y
              train_x train_y epochs vars0 = Raise ValueError.
Proof.
  intros Hlen Hep. unfold Train.train, Py.range.
  change (1 =? 0) with false. cbv iota. rewrite bind_Ok.
  assert (Hrl : exists k, Py.range_len 0 epochs 1 = S k).
  { exists (Z.to_nat (epochs - 1)). unfold Py.range_len. simpl.
    rewrite Z.div_1_r. lia. }
  destruct Hrl as [k ->]. cbn [seq map]. rewrite for_each_cons.
  assert (Hepoch : forall st e,
             Train.epoch minimize eval_cost eval_accuracy val_x val_y
                         train_x train_y st e = Raise ValueError).
  { intros st e. unfold Train.epoch.
    by rewrite (get_batches_zero_step train_x train_y
                  Batches.default_n_batches Hlen). }
  by rewrite Hepoch.
Qed.

End TrainMore.

Lemma train_too_few_samples_witness :
  let minimize (p : list nat) (xy : list nat * list nat) := p ++ xy.1 in
  let measure (p : list nat) (xy : list nat * list nat) := length p in
  Py.len (seq 0 9) < 10 /\ 1 <= 3 /\
  Train.train minimize measure measure [100%nat] [1%nat] (seq 0 9) (seq 0 9) 3 []
  = Raise ValueError.
Proof.
  intros minimize measure.
  split; [reflexivity|]. split; [lia|].
  apply (train_too_few_samples minimize measure measure [100%nat] [1%nat]
           (seq 0 9) (seq 0 9) 3 []); [reflexivity|lia].
Defined.

(** ** The subsets of the split *)

Lemma rows_at_lookup {A} (a : list A) (idx : list nat) :
  Forall (fun i => (i < length a)%nat) idx ->
  exists rows,
    Select.rows_at a idx = Some rows /\
    length rows = length idx /\
    forall (j i : nat), idx !! j = Some i -> rows !! j = a !! i.
Proof.
  intros Hidx. unfold Select.rows_at.
  assert (His : is_Some (mapM (fun i => a !! i) idx)).
  { apply mapM_is_Some. eapply Forall_impl; [exact Hidx|].
    intros i Hi. by apply lookup_lt_is_Some_2. }
  destruct His as [rows Hrows]. exists rows. split; [done|].
  apply mapM_Some in Hrows.
  split; [symmetry; by eapply Forall2_length|].
  intros j i Hj. destruct (Forall2_lookup_l _ _ _ _ _ Hrows Hj) as (r & -> & Hr).
  done.
Qed.

Lemma rows_at_zip {X Y} (codes : list X) (labels_vecs : list Y)
    (idx : list nat) (xs : list X) (ys : list Y) :
  Select.rows_at codes idx = Some xs ->
  Select.rows_at labels_vecs idx = Some ys ->
  Select.rows_at (zip codes labels_vecs) idx = Some (zip xs ys).
Proof.
  unfold Select.rows_at. rewrite !mapM_Some. intros Hx.
  revert ys. induction Hx as [|i x idx xs Hi _ IH]; intros ys Hy.
  - apply Forall2_nil_inv_l in Hy as ->. constructor.
  - apply Forall2_cons_inv_l in Hy as (y & ys' & Hy & Hys & ->).
    constructor; [|by apply IH].
    by rewrite lookup_zip_with, Hi, Hy.
Qed.

Lemma rows_at_app {A} (a : list A) (idx1 idx2 : list nat) (r1 r2 : list A) :
  Select.rows_at a idx1 = Some r1 ->
  Select.rows_at a idx2 = Some r2 ->
  Select.rows_at a (idx1 ++ idx2) = Some (r1 ++ r2).
Proof.
  unfold Select.rows_at. rewrite !mapM_Some. apply Forall2_app.
Qed.

Lemma rows_at_seq {A} (a : list A) :
  Select.rows_at a (seq 0 (length a)) = Some a.
Proof.
  unfold Select.rows_at. apply mapM_Some, Forall2_lookup. intros i.
  destruct (a !! i) as [x|] eqn:Hx.
  - rewrite (proj2 (lookup_seq 0 (length a) i i)).
    + by constructor.
    + split; [done|]. by eapply lookup_lt_Some.
  - rewrite lookup_seq_ge by (by apply lookup_ge_None). constructor.
Qed.

Lemma rows_at_Permutation {A} (a : list A) (idx1 idx2 : list nat) (r1 r2 : list A) :
  idx1 ≡ₚ idx2 ->
  Select.rows_at a idx1 = Some r1 ->
  Select.rows_at a idx2 = Some r2 ->
  r1 ≡ₚ r2.
Proof.
  unfold Select.rows_at. rewrite !mapM_Some. intros Hp.
  revert r1 r2. induction Hp as [|i l1 l2 _ IH|i j l|l1 l2 l3 Hp1 IH1 Hp2 IH2];
    intros r1 r2 H1 H2.
  - apply Forall2_nil_inv_l in H1 as ->. by apply Forall2_nil_inv_l in H2 as ->.
  - apply Forall2_cons_inv_l in H1 as (x & r1' & Hx & H1 & ->).
    apply Forall2_cons_inv_l in H2 as (y & r2' & Hy & H2 & ->).
    rewrite Hx in Hy. injection Hy as <-. constructor. by apply IH.
  - apply Forall2_cons_inv_l in H1 as (x1 & r1' & Hx1 & H1 & ->).
    apply Forall2_cons_inv_l in H1 as (x2 & r1'' & Hx2 & H1 & ->).
    apply Forall2_cons_inv_l in H2 as (y1 & r2' & Hy1 & H2 & ->).
    apply Forall2_cons_inv_l in H2 as (y2 & r2'' & Hy2 & H2 & ->).
    rewrite Hx1 in Hy2. rewrite Hx2 in Hy1.
    injection Hy1 as <-. injection Hy2 as <-.
    assert (r1'' = r2'') as ->; [|apply Permutation_swap].
    clear -H1 H2. revert r2'' H2.
    induction H1 as [|? ? ? ? Ha _ IH]; intros r2 H2.
    + by apply Forall2_nil_inv_l in H2 as ->.
    + apply Forall2_cons_inv_l in H2 as (z & r2' & Hz & H2 & ->).
      rewrite Ha in Hz. injection Hz as <-. f_equal. by apply IH.
  - assert (His : is_Some (mapM (fun i => a !! i) l2)).
    { apply mapM_is_Some. rewrite <- Hp1.
      apply mapM_is_Some. exists r1. by apply mapM_Some. }
    destruct His as [rm Hrm%mapM_Some].
    etrans; [by apply IH1|by apply IH2].
Qed.

(** The split cell loses and repeats nothing and keeps rows and targets
    together: when the first split hands out every index of the dataset once
    and there is one target per feature row, the three subsets are selected
    without an [IndexError], row [j] and target [j] of a subset are those of
    the sample its index [j] names, and the samples of the three subsets
    taken together are the samples of the dataset, each exactly once. *)
Theorem split_cell_keeps_every_sample {X Y : Type}
    (codes : list X) (labels_vecs : list Y) (first : list nat * list nat) :
  Split.shuffle_split (length codes) first ->
  length labels_vecs = length codes ->
  let p := Split.holdout_split first in
  exists s,
    Select.split_cell codes labels_vecs first = Some s /\
    (forall (j i : nat), Split.train_idx p !! j = Some i ->
       Select.train_x s !! j = codes !! i /\
       Select.train_y s !! j = labels_vecs !! i) /\
    (forall (j i : nat), Split.val_idx p !! j = Some i ->
       Select.val_x s !! j = codes !! i /\
       Select.val_y s !! j = labels_vecs !! i) /\
    (forall (j i : nat), Split.test_idx p !! j = Some i ->
       Select.test_x s !! j = codes !! i /\
       Select.test_y s !! j = labels_vecs !! i) /\
    Select.samples (Select.train_x s) (Select.train_y s)
      ++ Select.samples (Select.val_x s) (Select.val_y s)
      ++ Select.samples (Select.test_x s) (Select.test_y s)
    ≡ₚ zip codes labels_vecs.
Proof.
  intros Hsplit Hlen p.
  destruct (holdout_split_halves first) as (Ht & Hv & Hs). fold p in Ht, Hv, Hs.
  set (h := Z.to_nat (Split.half_val_len first.2)) in *.
  assert (Hperm : Split.train_idx p ++ Split.val_idx p ++ Split.test_idx p
                  ≡ₚ seq 0 (length codes)).
  { rewrite Ht, Hv, Hs, take_drop. exact Hsplit. }
  assert (Hall : Forall (fun i => (i < length codes)%nat)
                   (Split.train_idx p ++ Split.val_idx p ++ Split.test_idx p)).
  { rewrite Hperm. apply Forall_forall. intros i Hi%elem_of_seq. lia. }
  apply Forall_app in Hall as [Htr Hall]. apply Forall_app in Hall as [Hva Hte].
  assert (Hall' : forall idx, Forall (fun i => (i < length codes)%nat) idx ->
                              Forall (fun i => (i < length labels_vecs)%nat) idx)
    by (intros idx; by rewrite Hlen).
  destruct (rows_at_lookup codes _ Htr) as (tx & Htx & _ & Htx').
  destruct (rows_at_lookup labels_vecs _ (Hall' _ Htr)) as (ty & Hty & _ & Hty').
  destruct (rows_at_lookup codes _ Hva) as (vx & Hvx & _ & Hvx').
  destruct (rows_at_lookup labels_vecs _ (Hall' _ Hva)) as (vy & Hvy & _ & Hvy').
  destruct (rows_at_lookup codes _ Hte) as (sx & Hsx & _ & Hsx').
  destruct (rows_at_lookup labels_vecs _ (Hall' _ Hte)) as (sy & Hsy & _ & Hsy').
  exists (Select.Subsets tx ty vx vy sx sy).
  split.
  { unfold Select.split_cell, Select.select. fold p.
    by rewrite Htx, Hty, Hvx, Hvy, Hsx, Hsy. }
  split; [by intros j i Hj; split; [apply Htx'|apply Hty']|].
  split; [by intros j i Hj; split; [apply Hvx'|apply Hvy']|].
  split; [by intros j i Hj; split; [apply Hsx'|apply Hsy']|].
  simpl. unfold Select.samples.
  eapply (rows_at_Permutation (zip codes labels_vecs)); [exact Hperm| |].
  - apply rows_at_app; [by apply rows_at_zip|].
    apply rows_at_app; by apply rows_at_zip.
  - replace (length codes) with (length (zip codes labels_vecs)).
    + apply rows_at_seq.
    + rewrite length_zip_with. lia.
Qed.

Lemma split_cell_keeps_every_sample_witness :
  let codes := [10; 11; 12; 13; 14; 15; 16; 17] in
  let labels_vecs := [0; 1; 0; 1; 0; 1; 0; 1] in
  let first := ([0; 5; 6]%nat, [1; 2; 3; 4; 7]%nat) in
  Split.shuffle_split (length codes) first /\
  length labels_vecs = length codes /\
  exists s,
    Select.split_cell codes labels_vecs first = Some s /\
    Select.samples (Select.train_x s) (Select.train_y s)
      ++ Select.samples (Select.val_x s) (Select.val_y s)
      ++ Select.samples (Select.test_x s) (Select.test_y s)
    ≡ₚ zip codes labels_vecs.
Proof.
  intros codes labels_vecs first.
  assert (Hsplit : Split.shuffle_split (length codes) first)
    by (unfold Split.shuffle_split; by apply (bool_decide_unpack _); vm_compute).
  assert (Hlen : length labels_vecs = length codes) by reflexivity.
  split; [exact Hsplit|]. split; [exact Hlen|].
  destruct (split_cell_keeps_every_sample codes labels_vecs first Hsplit Hlen)
    as (s & Hs & _ & _ & _ & Hperm).
  exists s. split; [exact Hs|exact Hperm].
Defined.

Lemma rows_at_out_of_range {A : Type} (a : list A) (idx : list nat) (i : nat) :
  i ∈ idx ->
  (length a <= i)%nat ->
  Select.rows_at a idx = None.
Proof.
  intros Hin Hge. unfold Select.rows_at.
  destruct (mapM (fun i => a !! i) idx) as [rows|] eqn:Hrows; [|done].
  apply mapM_Some in Hrows.
  apply list_elem_of_lookup in Hin as [j Hj].
  destruct (Forall2_lookup_l _ _ _ _ _ Hrows Hj) as (r & _ & Hr).
  apply lookup_lt_Some in Hr. lia.
Qed.

Lemma rows_at_is_Some {A : Type} (a : list A) (idx : list nat) :
  is_Some (Select.rows_at a idx) <-> Forall (fun i => (i < length a)%nat) idx.
Proof.
  unfold Select.rows_at. rewrite mapM_is_Some. apply Forall_iff. intros i.
  simpl. apply lookup_lt_is_Some.
Qed.

Lemma pair_at_is_Some {X Y : Type} (codes : list X) (labels_vecs : list Y)
    (idx : list nat) :
  is_Some (Cell.pair_at codes labels_vecs idx)
  <-> Cell.in_range codes labels_vecs idx.
Proof.
  unfold Cell.pair_at, Cell.in_range. rewrite Forall_and.
  rewrite <- !rows_at_is_Some.
  destruct (Select.rows_at codes idx) as [x|],
    (Select.rows_at labels_vecs idx) as [y|]; simpl;
    split; try (intros [? ?]); try done;
    repeat match goal with H : is_Some None |- _ => by destruct H end.
Qed.



(** ** The label encoding: what the rows tell apart *)

(** The rows of the encoding by the number of classes. *)
Lemma transform_unique (labels : list string) :
  LabelBinarizer.transform (LabelBinarizer.unique labels) labels
  = map (fun label =>
           match LabelBinarizer.unique labels with
           | [_] => [0]
           | [_; c1] => [if String.eqb c1 label then 1 else 0]
           | _ => LabelBinarizer.indicator (LabelBinarizer.unique labels) label
           end) labels.
Proof.
  unfold LabelBinarizer.transform.
  destruct (LabelBinarizer.unique labels) as [|c0 [|c1 [|c2 rest]]]; simpl.
  - rewrite map_map. by apply map_ext.
  - done.
  - rewrite map_map. by apply map_ext.
  - done.
Qed.

Lemma indicator_at (classes : list string) (label : string) (k : nat) :
  classes !! k = Some label ->
  LabelBinarizer.indicator classes label !! k = Some 1.
Proof.
  intros Hk. unfold LabelBinarizer.indicator.
  rewrite list_lookup_fmap, Hk. simpl. by rewrite String.eqb_refl.
Qed.

(** The encoding tells the classes apart and nothing else: two samples get
    the same row exactly when they carry the same label. *)
Theorem label_encoding_injective (labels : list string) (vecs : list (list Z))
    (i j : nat) (li lj : string) (ri rj : list Z) :
  LabelBinarizer.encode labels = Ok vecs ->
  labels !! i = Some li ->
  labels !! j = Some lj ->
  vecs !! i = Some ri ->
  vecs !! j = Some rj ->
  ri = rj <-> li = lj.
Proof.
  intros Henc Hi Hj Hri Hrj.
  assert (Hvecs : vecs = LabelBinarizer.transform (LabelBinarizer.unique labels) labels).
  { unfold LabelBinarizer.encode, LabelBinarizer.fit in Henc.
    destruct labels; [done|]. by injection Henc as <-. }
  rewrite transform_unique in Hvecs. subst vecs.
  rewrite list_lookup_fmap, Hi in Hri. rewrite list_lookup_fmap, Hj in Hrj.
  injection Hri as <-. injection Hrj as <-.
  assert (Hini : li ∈ LabelBinarizer.unique labels)
    by (apply elem_of_unique; by eapply list_elem_of_lookup_2).
  assert (Hinj : lj ∈ LabelBinarizer.unique labels)
    by (apply elem_of_unique; by eapply list_elem_of_lookup_2).
  pose proof (unique_NoDup labels) as Hnd.
  split; [|by intros ->].
  destruct (LabelBinarizer.unique labels) as [|c0 [|c1 [|c2 rest]]] eqn:Hcl.
  - by apply elem_of_nil in Hini.
  - apply list_elem_of_singleton in Hini, Hinj. congruence.
  - apply NoDup_cons in Hnd as [Hc0 _].
    rewrite list_elem_of_singleton in Hc0.
    rewrite !elem_of_cons, !elem_of_nil in Hini, Hinj.
    destruct (String.eqb_spec c1 li), (String.eqb_spec c1 lj);
      intros [=]; destruct Hini as [?|[?|[]]], Hinj as [?|[?|[]]]; congruence.
  - intros Heq. apply list_elem_of_lookup in Hini as [k Hk].
    pose proof (indicator_at _ _ _ Hk) as H1. rewrite Heq in H1.
    unfold LabelBinarizer.indicator in H1.
    rewrite list_lookup_fmap, Hk in H1. simpl in H1.
    by destruct (String.eqb_spec li lj).
Qed.

Lemma label_encoding_injective_witness :
  let labels := ["daisy"; "tulips"; "roses"; "daisy"]%string in
  LabelBinarizer.encode labels = Ok [[1; 0; 0]; [0; 0; 1]; [0; 1; 0]; [1; 0; 0]] /\
  ([1; 0; 0] = [0; 0; 1] <-> "daisy"%string = "tulips"%string).
Proof.
  intros labels.
  assert (Henc : LabelBinarizer.encode labels
                 = Ok [[1; 0; 0]; [0; 0; 1]; [0; 1; 0]; [1; 0; 0]]) by reflexivity.
  split; [exact Henc|].
  exact (label_encoding_injective labels _ 0 1 "daisy" "tulips" [1; 0; 0] [0; 0; 1]
           Henc eq_refl eq_refl eq_refl eq_refl).
Defined.

(** ** The accuracy operations *)

Lemma argmax_from_settled (best : Z) (best_i i : nat) (row : list Z) :
  Forall (fun v => v <= best) row ->
  Metric.argmax_from Z.gtb best best_i i row = best_i.
Proof.
  revert i. induction row as [|v row IH]; intros i Hrow; [done|].
  apply Forall_cons in Hrow as [Hv Hrow]. simpl.
  destruct (Z.gtb_spec v best); [lia|]. by apply IH.
Qed.

Lemma argmax_from_indicator (classes : list string) (label : string) :
  NoDup classes ->
  forall (k best_i i : nat),
    classes !! k = Some label ->
    Metric.argmax_from Z.gtb 0 best_i i (LabelBinarizer.indicator classes label)
    = (i + k)%nat.
Proof.
  unfold LabelBinarizer.indicator.
  induction 1 as [|c classes Hc Hnd IH]; intros k best_i i Hk; [done|].
  simpl. destruct k as [|k]; simpl in Hk.
  - injection Hk as ->. rewrite String.eqb_refl. simpl.
    rewrite argmax_from_settled; [lia|].
    apply Forall_forall. intros v (c & -> & Hin)%list_elem_of_fmap.
    destruct (String.eqb_spec c label) as [->|_]; [done|lia].
  - destruct (String.eqb_spec c label) as [->|_].
    + exfalso. apply Hc. by eapply list_elem_of_lookup_2.
    + simpl. rewrite (IH k best_i (S i) Hk). lia.
Qed.

(** Reading a class back from its one-hot row: the classes are the distinct
    labels in strictly increasing order, and [tf.argmax] of row [i] of the
    encoding is the position of label [i] in that sorted list, when there
    are three or more classes. *)
Theorem argmax_decodes_label (labels : list string) (vecs : list (list Z))
    (i : nat) (label : string) :
  LabelBinarizer.encode labels = Ok vecs ->
  (3 <= length (LabelBinarizer.unique labels))%nat ->
  labels !! i = Some label ->
  LabelBinarizer.strictly_sorted (LabelBinarizer.unique labels) /\
  (forall x : string, x ∈ LabelBinarizer.unique labels <-> x ∈ labels) /\
  exists row k,
    vecs !! i = Some row /\
    LabelBinarizer.unique labels !! k = Some label /\
    Metric.argmax Z.gtb row = Some k.
Proof.
  intros Henc Hthree Hi.
  split; [apply unique_sorted|]. split; [intros x; apply elem_of_unique|].
  assert (Hvecs : vecs = LabelBinarizer.transform (LabelBinarizer.unique labels) labels).
  { unfold LabelBinarizer.encode, LabelBinarizer.fit in Henc.
    destruct labels; [done|]. by injection Henc as <-. }
  rewrite transform_unique in Hvecs. subst vecs.
  assert (Hin : label ∈ LabelBinarizer.unique labels)
    by (apply elem_of_unique; by eapply list_elem_of_lookup_2).
  apply list_elem_of_lookup in Hin as [k Hk].
  pose proof (unique_NoDup labels) as Hnd.
  destruct (LabelBinarizer.unique labels) as [|c0 [|c1 [|c2 rest]]] eqn:Hcl;
    [simpl in Hthree; lia..|].
  exists (LabelBinarizer.indicator (c0 :: c1 :: c2 :: rest) label), k.
  split; [by rewrite list_lookup_fmap, Hi|]. split; [done|].
  apply NoDup_cons in Hnd as [Hc0 Hnd].
  set (tl := c1 :: c2 :: rest) in *.
  unfold LabelBinarizer.indicator at 1. cbn [map Metric.argmax].
  destruct k as [|k]; simpl in Hk.
  - injection Hk as ->. rewrite String.eqb_refl. f_equal.
    apply argmax_from_settled.
    apply Forall_forall. intros v (c & -> & Hin)%list_elem_of_fmap.
    destruct (String.eqb_spec c label) as [->|_]; [done|lia].
  - destruct (String.eqb_spec c0 label) as [->|_].
    + exfalso. apply Hc0. by eapply list_elem_of_lookup_2.
    + f_equal.
      exact (argmax_from_indicator tl label Hnd k 0%nat 1%nat Hk).
Qed.

Lemma argmax_decodes_label_witness :
  let labels := ["daisy"; "tulips"; "roses"; "daisy"]%string in
  LabelBinarizer.encode labels = Ok [[1; 0; 0]; [0; 0; 1]; [0; 1; 0]; [1; 0; 0]] /\
  (3 <= length (LabelBinarizer.unique labels))%nat /\
  LabelBinarizer.strictly_sorted (LabelBinarizer.unique labels) /\
  (forall x : string, x ∈ LabelBinarizer.unique labels <-> x ∈ labels) /\
  exists row k,
    [[1; 0; 0]; [0; 0; 1]; [0; 1; 0]; [1; 0; 0]] !! 1%nat = Some row /\
    LabelBinarizer.unique labels !! k = Some "tulips"%string /\
    Metric.argmax Z.gtb row = Some k.
Proof.
  intros labels.
  assert (Henc : LabelBinarizer.encode labels
                 = Ok [[1; 0; 0]; [0; 0; 1]; [0; 1; 0]; [1; 0; 0]]) by reflexivity.
  assert (Hthree : (3 <= length (LabelBinarizer.unique labels))%nat)
    by (vm_compute; lia).
  split; [exact Henc|]. split; [exact Hthree|].
  exact (argmax_decodes_label labels _ 1 "tulips" Henc Hthree eq_refl).
Defined.

(** With one or two classes the targets are one column wide, and so is the
    output layer built from [labels_vecs.shape[1]]: [tf.argmax] over a single
    column is always zero, so [correct_pred] holds for every sample whatever
    the classifier computes, and the accuracy says nothing. *)
Theorem correct_pred_blind_up_to_two_classes {F : Type} (gt : F -> F -> bool)
    (labels : list string) (vecs : list (list Z)) (predicted : list (list F)) :
  LabelBinarizer.encode labels = Ok vecs ->
  (length (LabelBinarizer.unique labels) <= 2)%nat ->
  length predicted = length vecs ->
  Forall (fun p : list F =>
            Forall (fun v : list Z => length p = length v) vecs) predicted ->
  Metric.correct_pred gt predicted vecs = map (fun _ => Some true) labels.
Proof.
  intros Henc Htwo Hlen Hwidth.
  assert (Hne : labels <> []) by (by destruct labels).
  assert (Hvecs : vecs = LabelBinarizer.transform (LabelBinarizer.unique labels) labels).
  { unfold LabelBinarizer.encode, LabelBinarizer.fit in Henc.
    destruct labels; [done|]. by injection Henc as <-. }
  rewrite transform_unique in Hvecs.
  assert (Hone : exists f : string -> Z, vecs = map (fun label => [f label]) labels).
  { destruct labels as [|l0 labels]; [done|].
    assert (Hin : l0 ∈ LabelBinarizer.unique (l0 :: labels))
      by (apply elem_of_unique; constructor).
    destruct (LabelBinarizer.unique (l0 :: labels)) as [|c0 [|c1 [|c2 rest]]];
      [by apply elem_of_nil in Hin| | |simpl in Htwo; lia].
    - by exists (fun _ => 0).
    - by exists (fun label => if String.eqb c1 label then 1 else 0). }
  destruct Hone as [f ->]. clear Hvecs Henc Htwo Hne.
  rewrite length_map in Hlen. unfold Metric.correct_pred.
  revert predicted Hlen Hwidth.
  induction labels as [|l labels IH]; intros predicted Hlen Hwidth.
  - by destruct predicted.
  - destruct predicted as [|p predicted]; [done|].
    apply Forall_cons in Hwidth as [Hp Hwidth].
    apply Forall_cons in Hp as [Hp _]. simpl in Hp.
    destruct p as [|a [|b p]]; [done| |done].
    cbn [map zip_with]. f_equal.
    apply IH; [simpl in Hlen; lia|].
    eapply Forall_impl; [exact Hwidth|]. intros q Hq.
    by apply Forall_cons in Hq as [_ Hq].
Qed.

Lemma correct_pred_blind_up_to_two_classes_witness :
  let labels := ["no"; "yes"; "no"]%string in
  LabelBinarizer.encode labels = Ok [[0]; [1]; [0]] /\
  Metric.correct_pred Z.gtb [[5]; [-2]; [0]] [[0]; [1]; [0]]
  = [Some true; Some true; Some true].
Proof.
  intros labels.
  assert (Henc : LabelBinarizer.encode labels = Ok [[0]; [1]; [0]]) by reflexivity.
  split; [exact Henc|].
  apply (correct_pred_blind_up_to_two_classes Z.gtb labels [[0]; [1]; [0]]
           [[5]; [-2]; [0]] Henc).
  - vm_compute. lia.
  - reflexivity.
  - repeat constructor.
Defined.

(** ** The download progress bar *)

(** However the block numbers of a download come in, the bar's counter moves
    with them: after any series of reports at one block size the counter has
    grown by the block size times the advance of [last_block], and
    [last_block] and [total] are those of the last report. *)
Theorem hook_counts_blocks (block_size : Z) (calls : list (Z * option Z))
    (b : Progress.bar) :
  let b' := Progress.report block_size b calls in
  Progress.n b'
  = Progress.n b + (Progress.last_block b' - Progress.last_block b) * block_size /\
  Progress.last_block b' = default (Progress.last_block b) (fst <$> last calls) /\
  Progress.total b' = default (Progress.total b) (snd <$> last calls).
Proof.
  revert b. induction calls as [|[block_num total_size] calls IH]; intros b b'.
  - subst b'. simpl. repeat split. lia.
  - subst b'.
    change (Progress.report block_size b ((block_num, total_size) :: calls))
      with (Progress.report block_size
              (Progress.hook b block_num block_size total_size) calls).
    destruct (IH (Progress.hook b block_num block_size total_size))
      as (Hn & Hl & Ht).
    rewrite Hn, Hl, Ht, last_cons. clear Hn Hl Ht IH.
    destruct (last calls) as [[block_num' total_size']|]; simpl;
      repeat split; lia.
Qed.

(** ** The codes file *)

Lemma byte_of_range (w k : Z) : 0 <= Np.byte_of w k < 256.
Proof.
  unfold Np.byte_of. change 255 with (Z.ones 8).
  rewrite Z.land_ones by lia. apply Z.mod_pos_bound. lia.
Qed.

(** The codes file is a bare dump: four bytes for every item of the array and
    nothing else, neither header nor shape, so [N * D * 4] bytes for a
    well-formed array of [N] rows and [D] columns. *)
Theorem codes_file_size (codes : Np.ndarray) (labels : list string) :
  let file := Cache.codes_file (Cache.write_cache codes labels) in
  Py.len file = 4 * Py.len (Np.data codes) /\
  Forall (fun byte => 0 <= byte < 256) file /\
  (Np.well_formed codes ->
   Py.len file = (Np.shape codes).1 * (Np.shape codes).2 * 4).
Proof.
  cbn [Cache.write_cache Cache.codes_file]. unfold Np.tofile.
  assert (Hlen : forall items,
             Py.len (flat_map Np.item_bytes items) = 4 * Py.len items).
  { induction items as [|w items IH]; [done|].
    unfold Py.len in *. cbn [flat_map Np.item_bytes].
    rewrite length_app. simpl. lia. }
  split; [apply Hlen|]. split.
  - induction (Np.data codes) as [|w items IH]; [constructor|].
    cbn [flat_map Np.item_bytes app].
    repeat (constructor; [apply byte_of_range|]). exact IH.
  - intros (_ & _ & Hsize & _). rewrite Hlen, Hsize. lia.
Qed.

Lemma codes_file_size_witness :
  let codes := {| Np.shape := (2, 2);
                  Np.data := [1065353216; 3212836864; 0; 4294967295] |} in
  Np.well_formed codes /\
  Py.len (Cache.codes_file (Cache.write_cache codes ["daisy"; "roses"]%string))
  = 2 * 2 * 4.
Proof.
  intros codes.
  assert (Hwf : Np.well_formed codes).
  { unfold Np.well_formed, Np.is_float32. simpl.
    repeat split; try lia; repeat constructor; lia. }
  split; [exact Hwf|].
  destruct (codes_file_size codes ["daisy"; "roses"]%string) as (_ & _ & H).
  exact (H Hwf).
Defined.

(** ** Reloading files that do not belong together *)



